(** * EEG Mood Classifier: a shallow embedding of [EEG.py] and its properties

    The development follows the layout of the program:
    - [NpFloat]: the values held by a numpy [float64] array, [np.mean],
      [np.linspace] and [np.arange];
    - [PyStr]: [str.split], [str.join] and the builtin [float()] on text;
    - [Classifier]: [predict_mood];
    - [Pandas]: the part of a [DataFrame] that [load_csv_file] touches;
    - [Py]: a state-and-exception monad for Python statements, with
      [try]/[except] and [for];
    - [Scene], [State]: the drawing surface and the state of the window,
      of the output streams and of the random generators;
    - [Nx]: the random graph of networkx;
    - [EEG]: [plot_3d_network] and the methods of [EEGApp].
    The definitions come first; the facts about them follow.

    Modelling conventions.  A finite [float64] is a dyadic rational; the
    model keeps finite values as exact rationals ([Q]) and performs sums
    and quotients exactly, so rounding and overflow of IEEE arithmetic are
    outside the model.  The special values [inf], [-inf] and [nan] are
    kept, with their arithmetic and comparison rules, because the program
    can produce them ([np.mean] of an empty array, [float("nan")]).
    Text is ASCII.  What the libraries do (pandas reading a file, the
    image writer, the random generators) enters as an environment: a
    function from paths to tables or errors, the error a writer raises at
    a stage of the export, and the stream of values a generator hands
    out. *)

From Stdlib Require Import String Ascii DecimalString QArith ZArith Bool Arith Lia.
From Stdlib Require Import List Permutation.
Import ListNotations.

Local Open Scope Q_scope.

(* ------------------------------------------------------------------ *)
(** ** numpy [float64] values *)

Module NpFloat.

Inductive float64 : Type :=
| Finite (q : Q)
| PosInf
| NegInf
| NaN.

(** [x + y] on [float64]. *)
Definition fadd (x y : float64) : float64 :=
  match x, y with
  | NaN, _ | _, NaN => NaN
  | PosInf, NegInf | NegInf, PosInf => NaN
  | PosInf, _ | _, PosInf => PosInf
  | NegInf, _ | _, NegInf => NegInf
  | Finite a, Finite b => Finite (a + b)
  end.

Definition Qltb (a b : Q) : bool := negb (Qle_bool b a).

(** [x / n] for an element count [n]: [0/0] is [nan], and a non-zero
    value over zero is an infinity of its sign. *)
Definition fdiv_count (x : float64) (n : nat) : float64 :=
  match x with
  | Finite q =>
      match n with
      | O => if Qeq_bool q 0 then NaN
             else if Qltb 0 q then PosInf else NegInf
      | S _ => Finite (q / inject_Z (Z.of_nat n))
      end
  | PosInf => PosInf
  | NegInf => NegInf
  | NaN => NaN
  end.

(** [x > y]: false as soon as one side is [nan]. *)
Definition fgt (x y : float64) : bool :=
  match x, y with
  | NaN, _ | _, NaN => false
  | PosInf, PosInf => false
  | PosInf, _ => true
  | _, PosInf => false
  | NegInf, _ => false
  | Finite _, NegInf => true
  | Finite a, Finite b => Qltb b a
  end.

(** [x < y]. *)
Definition flt (x y : float64) : bool := fgt y x.

(** [np.sum]: the additive reduction of the array, from [0.0]. *)
Definition np_sum (a : list float64) : float64 :=
  fold_left fadd a (Finite 0).

(** [np.mean(a)]: the sum divided by the number of elements.  On an
    empty array numpy warns and returns [nan]; it does not raise. *)
Definition np_mean (a : list float64) : float64 :=
  fdiv_count (np_sum a) (length a).

(** [np.linspace(0, stop, num)] for integer [stop] and [num]: [num]
    evenly spaced samples, both ends included. *)
Definition np_linspace0 (stop num : nat) : list float64 :=
  match num with
  | O => []
  | S O => [Finite 0]
  | S m =>
      map (fun i => Finite (inject_Z (Z.of_nat i) * inject_Z (Z.of_nat stop)
                            / inject_Z (Z.of_nat m)))
          (seq 0 num)
  end.

(** [np.arange(start, stop)] on integers. *)
Definition np_arange (start stop : nat) : list nat :=
  seq start (stop - start).

End NpFloat.
Export NpFloat.

(* ------------------------------------------------------------------ *)
(** ** Python text: [str.split] and [float()] *)

Module PyStr.

(** [s.split(sep)] for a one-character separator: the fields between
    the separators, empty fields included; never an empty list. *)
Fixpoint split (sep : ascii) (s : string) : list string :=
  match s with
  | EmptyString => [EmptyString]
  | String c rest =>
      if Ascii.eqb c sep then EmptyString :: split sep rest
      else match split sep rest with
           | [] => [String c EmptyString]
           | field :: fields => String c field :: fields
           end
  end.

(** [sep.join(parts)]. *)
Fixpoint join (sep : string) (parts : list string) : string :=
  match parts with
  | [] => EmptyString
  | [p] => p
  | p :: ps => (p ++ sep ++ join sep ps)%string
  end.

Definition code (c : ascii) : nat := nat_of_ascii c.

(** The ASCII white space that [float()] strips at both ends:
    space, and the controls from tab to carriage return. *)
Definition is_space (c : ascii) : bool :=
  (code c =? 32)%nat || ((9 <=? code c)%nat && (code c <=? 13)%nat).

Definition is_digit (c : ascii) : bool :=
  (48 <=? code c)%nat && (code c <=? 57)%nat.

Definition is_underscore (c : ascii) : bool := (code c =? 95)%nat.

(** ASCII lower-casing, for the case-insensitive words. *)
Definition lower (c : ascii) : ascii :=
  if (65 <=? code c)%nat && (code c <=? 90)%nat
  then ascii_of_nat (code c + 32) else c.

Fixpoint lstrip (s : list ascii) : list ascii :=
  match s with
  | c :: rest => if is_space c then lstrip rest else s
  | [] => []
  end.

Definition strip (s : list ascii) : list ascii :=
  rev (lstrip (rev (lstrip s))).

(** Digit separators: an underscore is accepted only between two
    digits; the accepted ones are removed before the number is read. *)
Fixpoint remove_underscores (prev : option ascii) (s : list ascii)
  : option (list ascii) :=
  match s with
  | [] =>
      match prev with
      | Some p => if is_underscore p then None else Some []
      | None => Some []
      end
  | c :: rest =>
      if is_underscore c then
        match prev with
        | Some p => if is_digit p then remove_underscores (Some c) rest
                    else None
        | None => None
        end
      else
        let after_underscore :=
          match prev with Some p => is_underscore p | None => false end in
        if after_underscore && negb (is_digit c) then None
        else option_map (cons c) (remove_underscores (Some c) rest)
  end.

(** The longest prefix of digits, and what follows it. *)
Fixpoint span_digits (s : list ascii) : list ascii * list ascii :=
  match s with
  | c :: rest =>
      if is_digit c
      then let (ds, r) := span_digits rest in (c :: ds, r)
      else ([], s)
  | [] => ([], [])
  end.

Definition digit_value (c : ascii) : Z := Z.of_nat (code c - 48).

Definition digits_value (ds : list ascii) : Z :=
  fold_left (fun acc d => (10 * acc + digit_value d)%Z) ds 0%Z.

(** An optional sign: [true] for a minus. *)
Definition take_sign (s : list ascii) : bool * list ascii :=
  match s with
  | c :: rest =>
      if (code c =? 45)%nat then (true, rest)
      else if (code c =? 43)%nat then (false, rest)
      else (false, s)
  | [] => (false, [])
  end.

(** The exponent part: nothing, or [e]/[E], an optional sign and at
    least one digit, up to the end of the text. *)
Definition parse_exponent (s : list ascii) : option Z :=
  match s with
  | [] => Some 0%Z
  | c :: rest =>
      if (code (lower c) =? 101)%nat then
        let (neg, r) := take_sign rest in
        let (ds, r') := span_digits r in
        match ds, r' with
        | _ :: _, [] =>
            Some (if neg then (- digits_value ds)%Z else digits_value ds)
        | _, _ => None
        end
      else None
  end.

(** [m * 10^e] as an exact rational. *)
Definition scale10 (m e : Z) : Q :=
  if (0 <=? e)%Z then inject_Z (m * 10 ^ e)
  else Qmake m (Z.to_pos (10 ^ (- e))).

(** A decimal number without sign: digits with an optional point (at
    least one digit on one side of it) and an optional exponent. *)
Definition parse_decimal (s : list ascii) : option Q :=
  let (ip, r1) := span_digits s in
  let '(fp, r2) :=
    match r1 with
    | c :: t => if (code c =? 46)%nat then span_digits t else ([], r1)
    | [] => ([], [])
    end in
  match ip ++ fp with
  | [] => None
  | ds =>
      match parse_exponent r2 with
      | Some ex =>
          Some (scale10 (digits_value ds) (ex - Z.of_nat (length fp)))
      | None => None
      end
  end.

Definition word (w : string) : list ascii := list_ascii_of_string w.

Definition same_word (s : list ascii) (w : string) : bool :=
  if list_eq_dec ascii_dec (map lower s) (word w) then true else false.

(** The unsigned value: a decimal number, or one of the words [inf],
    [infinity], [nan] in any letter case. *)
Definition parse_unsigned (neg : bool) (s : list ascii) : option float64 :=
  if same_word s "inf" || same_word s "infinity" then
    Some (if neg then NegInf else PosInf)
  else if same_word s "nan" then Some NaN
  else
    match parse_decimal s with
    | Some q => Some (Finite (if neg then - q else q))
    | None => None
    end.

(** The builtin [float(text)] on ASCII text: [Some v] for the value,
    [None] when Python raises [ValueError].  White space is stripped at
    both ends, underscores are accepted between digits, and the words
    [inf], [infinity] and [nan] are values. *)
Definition float_of_string (text : string) : option float64 :=
  match remove_underscores None (strip (list_ascii_of_string text)) with
  | Some s => let (neg, r) := take_sign s in parse_unsigned neg r
  | None => None
  end.

End PyStr.
Export PyStr.

(* ------------------------------------------------------------------ *)
(** ** The classifier *)

Module Classifier.

Local Open Scope string_scope.

(** [predict_mood(eeg_values)], EEG.py lines 31-38. *)
Definition predict_mood (eeg_values : list float64) : string * string :=
  let avg := np_mean eeg_values in
  if fgt avg (Finite 2) then
    ("Happy", "Brain activity shows high energy, suggesting a happy mood.")
  else if flt avg (Finite (-2)) then
    ("Sad", "Low energy detected, may indicate sadness.")
  else
    ("Neutral", "Balanced activity, likely a neutral mood.").

End Classifier.
Export Classifier.

(* ------------------------------------------------------------------ *)
(** ** pandas: what [load_csv_file] uses of a [DataFrame] *)

Module Pandas.

Section Frame.

Context {cell : Type}.

(** A table as [read_csv] returns it: the column names in order and
    the rows of cells.  [df.values] is the two-dimensional array of
    the cells, one inner list per row. *)
Record DataFrame : Type := mkDataFrame {
  columns : list string;
  values : list (list cell)
}.

(** Every row has one cell per column. *)
Definition rectangular (df : DataFrame) : Prop :=
  Forall (fun row => length row = length (columns df)) (values df).

(** [name in df.columns]. *)
Definition has_column (name : string) (df : DataFrame) : bool :=
  existsb (String.eqb name) (columns df).

(** The entries of [xs] at the positions where [mask] is [true]. *)
Fixpoint select {A : Type} (mask : list bool) (xs : list A) : list A :=
  match mask, xs with
  | keep :: mask', x :: xs' =>
      if keep then x :: select mask' xs' else select mask' xs'
  | _, _ => []
  end.

(** [df.drop(name, axis=1)], used where the column exists: the table
    without the columns of that name. *)
Definition drop (name : string) (df : DataFrame) : DataFrame :=
  let mask := map (fun c => negb (String.eqb name c)) (columns df) in
  {| columns := select mask (columns df);
     values := map (select mask) (values df) |}.

(** [a.flatten()] on a two-dimensional array: row after row. *)
Definition flatten (a : list (list cell)) : list cell := concat a.

End Frame.

Arguments DataFrame : clear implicits.

End Pandas.
Export Pandas.

(* ------------------------------------------------------------------ *)
(** ** Python control: state and exceptions *)

Module Py.

(** A raised exception: whether its class derives from [Exception]
    (what [except Exception] catches; a bare [except:] catches all),
    and its [str()]. *)
Record PyExc : Type := mkExc {
  exc_is_Exception : bool;
  exc_str : string
}.

Inductive Res (A : Type) : Type :=
| Return (a : A)
| Raise (e : PyExc).

Arguments Return {A} a.
Arguments Raise {A} e.

Section Monad.

Context {St : Type}.

(** A statement run from a state: how it ends and the state it
    leaves.  What was written before an exception stays written. *)
Definition M (A : Type) : Type := St -> Res A * St.

Definition ret {A : Type} (a : A) : M A := fun s => (Return a, s).

Definition bind {A B : Type} (m : M A) (k : A -> M B) : M B :=
  fun s =>
    match m s with
    | (Return a, s') => k a s'
    | (Raise e, s') => (Raise e, s')
    end.

Definition raise {A : Type} (e : PyExc) : M A := fun s => (Raise e, s).

Definition get : M St := fun s => (Return s, s).

Definition modify (f : St -> St) : M unit := fun s => (Return tt, f s).

(** [try: body  except <classes> as e: handler(e)], where [catches]
    says which exceptions the clause takes. *)
Definition try_except (catches : PyExc -> bool)
           (body : M unit) (handler : PyExc -> M unit) : M unit :=
  fun s =>
    match body s with
    | (Return a, s') => (Return a, s')
    | (Raise e, s') =>
        if catches e then handler e s' else (Raise e, s')
    end.

(** [for x in xs: body(x)]. *)
Fixpoint for_each {A : Type} (xs : list A) (body : A -> M unit)
  : M unit :=
  match xs with
  | [] => ret tt
  | x :: rest => bind (body x) (fun _ => for_each rest body)
  end.

End Monad.

Arguments M : clear implicits.

(** [except Exception] *)
Definition except_Exception (e : PyExc) : bool := exc_is_Exception e.

(** bare [except:] *)
Definition except_all (e : PyExc) : bool := true.

Module Notations.
Notation "x <- m ;; k" := (bind m (fun x => k))
  (at level 61, m at next level, right associativity).
Notation "m ;;; k" := (bind m (fun _ => k))
  (at level 61, right associativity).
End Notations.

End Py.
Export Py.
Import Py.Notations.
(* ------------------------------------------------------------------ *)
(** ** The drawing surface *)

Module Scene.

(** One call of [ax.plot(x, y, label=..., color=...)] on the 2D axes. *)
Record Line2D : Type := mkLine {
  xdata : list float64;
  ydata : list float64;
  line_label : string;
  line_color : string
}.

Record Axes : Type := mkAxes {
  lines : list Line2D;
  title : string;
  xlabel : string;
  ylabel : string;
  legend : bool
}.

Definition Point3 : Type := (Q * Q * Q)%type.

(** The 3D axes: the scattered points, the segments drawn for the
    edges, the texts put at the nodes, and the captions. *)
Record Axes3D : Type := mkAxes3D {
  scatter : list Point3;
  segments : list (Point3 * Point3);
  texts : list (Point3 * string);
  title3 : string;
  xlabel3 : string;
  ylabel3 : string;
  zlabel3 : string
}.

(** The figure of the canvas, with its two subplots side by side:
    position 121 holds the 2D axes and 122 the 3D axes.  A figure
    without axes shows as one with blank axes. *)
Record Figure : Type := mkFigure {
  ax1 : Axes;
  ax2 : Axes3D
}.

Definition blank_axes : Axes :=
  mkAxes [] EmptyString EmptyString EmptyString false.

Definition blank_axes3d : Axes3D :=
  mkAxes3D [] [] [] EmptyString EmptyString EmptyString EmptyString.

Definition blank_figure : Figure := mkFigure blank_axes blank_axes3d.

End Scene.
Export Scene.

(* ------------------------------------------------------------------ *)
(** ** The state the program runs in *)

Module State.

(** A random generator: the values it will hand out and how many it
    has handed out so far. *)
Record Rng : Type := mkRng {
  stream : nat -> Q;
  cursor : nat
}.

Record World : Type := mkWorld {
  eeg_input : string;            (* text of the [QLineEdit] *)
  result_label : string;         (* text of [self.result_label] *)
  network_info_label : string;   (* text of [self.network_info_label] *)
  figure : Figure;               (* [self.canvas.figure] *)
  screen : Figure;               (* what [canvas.draw()] last rendered *)
  stdout : list string;          (* the lines printed, oldest first *)
  gif : option (list Figure);    (* eeg_network_animation.gif *)
  py_random : Rng;               (* [random], drawn from by networkx *)
  np_random : Rng                (* [np.random] *)
}.

Definition set_eeg_input (t : string) (w : World) : World :=
  mkWorld t (result_label w) (network_info_label w) (figure w) (screen w)
          (stdout w) (gif w) (py_random w) (np_random w).

Definition set_result_label (t : string) (w : World) : World :=
  mkWorld (eeg_input w) t (network_info_label w) (figure w) (screen w)
          (stdout w) (gif w) (py_random w) (np_random w).

Definition set_network_info_label (t : string) (w : World) : World :=
  mkWorld (eeg_input w) (result_label w) t (figure w) (screen w)
          (stdout w) (gif w) (py_random w) (np_random w).

Definition set_figure (f : Figure) (w : World) : World :=
  mkWorld (eeg_input w) (result_label w) (network_info_label w) f (screen w)
          (stdout w) (gif w) (py_random w) (np_random w).

Definition set_screen (f : Figure) (w : World) : World :=
  mkWorld (eeg_input w) (result_label w) (network_info_label w) (figure w) f
          (stdout w) (gif w) (py_random w) (np_random w).

Definition set_stdout (out : list string) (w : World) : World :=
  mkWorld (eeg_input w) (result_label w) (network_info_label w) (figure w)
          (screen w) out (gif w) (py_random w) (np_random w).

Definition set_gif (g : option (list Figure)) (w : World) : World :=
  mkWorld (eeg_input w) (result_label w) (network_info_label w) (figure w)
          (screen w) (stdout w) g (py_random w) (np_random w).

Definition set_py_random (r : Rng) (w : World) : World :=
  mkWorld (eeg_input w) (result_label w) (network_info_label w) (figure w)
          (screen w) (stdout w) (gif w) r (np_random w).

Definition set_np_random (r : Rng) (w : World) : World :=
  mkWorld (eeg_input w) (result_label w) (network_info_label w) (figure w)
          (screen w) (stdout w) (gif w) (py_random w) r.

Definition Stmt (A : Type) : Type := M World A.

(** ** Widgets and output *)

Definition setText_eeg_input (t : string) : Stmt unit :=
  modify (set_eeg_input t).

Definition setText_result_label (t : string) : Stmt unit :=
  modify (set_result_label t).

Definition setText_network_info_label (t : string) : Stmt unit :=
  modify (set_network_info_label t).

(** [print(line)] *)
Definition print (line : string) : Stmt unit :=
  modify (fun w => set_stdout (stdout w ++ [line]) w).

(** ** Axes operations, on the axes of the canvas figure *)

Definition on_ax1 (f : Axes -> Axes) : Stmt unit :=
  modify (fun w => set_figure (mkFigure (f (ax1 (figure w)))
                                        (ax2 (figure w))) w).

Definition on_ax2 (f : Axes3D -> Axes3D) : Stmt unit :=
  modify (fun w => set_figure (mkFigure (ax1 (figure w))
                                        (f (ax2 (figure w)))) w).

(** [figure.clf()] followed by the two [add_subplot] calls. *)
Definition figure_clf : Stmt unit := modify (set_figure blank_figure).
Definition add_subplot_121 : Stmt unit := on_ax1 (fun _ => blank_axes).
Definition add_subplot_122_3d : Stmt unit := on_ax2 (fun _ => blank_axes3d).

Definition ax1_clear : Stmt unit := on_ax1 (fun _ => blank_axes).
Definition ax2_clear : Stmt unit := on_ax2 (fun _ => blank_axes3d).

(** [ax1.plot(x, y, label=lbl, color=col)]: matplotlib raises
    [ValueError] when [x] and [y] differ in length. *)
Definition ax1_plot (x y : list float64) (lbl col : string) : Stmt unit :=
  if (length x =? length y)%nat then
    on_ax1 (fun a => mkAxes (lines a ++ [mkLine x y lbl col])
                            (title a) (xlabel a) (ylabel a) (legend a))
  else
    raise (mkExc true "x and y must have same first dimension").

Definition ax1_set_title (t : string) : Stmt unit :=
  on_ax1 (fun a => mkAxes (lines a) t (xlabel a) (ylabel a) (legend a)).
Definition ax1_set_xlabel (t : string) : Stmt unit :=
  on_ax1 (fun a => mkAxes (lines a) (title a) t (ylabel a) (legend a)).
Definition ax1_set_ylabel (t : string) : Stmt unit :=
  on_ax1 (fun a => mkAxes (lines a) (title a) (xlabel a) t (legend a)).
Definition ax1_legend : Stmt unit :=
  on_ax1 (fun a => mkAxes (lines a) (title a) (xlabel a) (ylabel a) true).

Definition ax2_scatter (pts : list Point3) : Stmt unit :=
  on_ax2 (fun a => mkAxes3D (scatter a ++ pts) (segments a) (texts a)
                            (title3 a) (xlabel3 a) (ylabel3 a) (zlabel3 a)).
Definition ax2_plot (p q : Point3) : Stmt unit :=
  on_ax2 (fun a => mkAxes3D (scatter a) (segments a ++ [(p, q)]) (texts a)
                            (title3 a) (xlabel3 a) (ylabel3 a) (zlabel3 a)).
Definition ax2_text (p : Point3) (t : string) : Stmt unit :=
  on_ax2 (fun a => mkAxes3D (scatter a) (segments a) (texts a ++ [(p, t)])
                            (title3 a) (xlabel3 a) (ylabel3 a) (zlabel3 a)).
Definition ax2_set_title (t : string) : Stmt unit :=
  on_ax2 (fun a => mkAxes3D (scatter a) (segments a) (texts a)
                            t (xlabel3 a) (ylabel3 a) (zlabel3 a)).
Definition ax2_set_xlabel (t : string) : Stmt unit :=
  on_ax2 (fun a => mkAxes3D (scatter a) (segments a) (texts a)
                            (title3 a) t (ylabel3 a) (zlabel3 a)).
Definition ax2_set_ylabel (t : string) : Stmt unit :=
  on_ax2 (fun a => mkAxes3D (scatter a) (segments a) (texts a)
                            (title3 a) (xlabel3 a) t (zlabel3 a)).
Definition ax2_set_zlabel (t : string) : Stmt unit :=
  on_ax2 (fun a => mkAxes3D (scatter a) (segments a) (texts a)
                            (title3 a) (xlabel3 a) (ylabel3 a) t).

(** [self.canvas.draw()] *)
Definition canvas_draw : Stmt unit :=
  modify (fun w => set_screen (figure w) w).

(** ** Random draws *)

Definition advance (r : Rng) : Rng := mkRng (stream r) (S (cursor r)).

(** [random.random()] *)
Definition random_random : Stmt Q :=
  fun w => (Return (stream (py_random w) (cursor (py_random w))),
            set_py_random (advance (py_random w)) w).

(** One sample of [np.random]. *)
Definition np_random_sample : Stmt Q :=
  fun w => (Return (stream (np_random w) (cursor (np_random w))),
            set_np_random (advance (np_random w)) w).

(** [np.random.rand(3)] *)
Definition np_random_rand3 : Stmt Point3 :=
  x <- np_random_sample ;;
  y <- np_random_sample ;;
  z <- np_random_sample ;;
  ret (x, y, z).

End State.
Export State.

(* ------------------------------------------------------------------ *)
(** ** networkx: the random graph *)

Module Nx.

Record Graph : Type := mkGraph {
  nodes : list nat;
  edges : list (nat * nat)
}.

(** [itertools.combinations(range(n), 2)] *)
Definition combinations2 (n : nat) : list (nat * nat) :=
  flat_map (fun i => map (pair i) (seq (S i) (n - S i))) (seq 0 n).

(** The loop of [gnp_random_graph]: one draw per candidate pair, the
    pair becoming an edge when the draw is below [p]. *)
Fixpoint add_random_edges (p : Q) (candidates : list (nat * nat))
  : Stmt (list (nat * nat)) :=
  match candidates with
  | [] => ret []
  | e :: rest =>
      r <- random_random ;;
      es <- add_random_edges p rest ;;
      ret (if Qltb r p then e :: es else es)
  end.

(** [nx.erdos_renyi_graph(n, p)] *)
Definition erdos_renyi_graph (n : nat) (p : Q) : Stmt Graph :=
  if Qle_bool p 0 then ret (mkGraph (seq 0 n) [])
  else if Qle_bool 1 p then ret (mkGraph (seq 0 n) (combinations2 n))
  else
    es <- add_random_edges p (combinations2 n) ;;
    ret (mkGraph (seq 0 n) es).

End Nx.
Export Nx.

(* ------------------------------------------------------------------ *)
(** ** The program *)

Module EEG.

Local Open Scope string_scope.

(** [str(i)] for a node index. *)
Definition str_nat (i : nat) : string :=
  DecimalString.NilEmpty.string_of_uint (Nat.to_uint i).

(** [{i: np.random.rand(3) for i in G.nodes}] *)
Fixpoint random_positions (ns : list nat) : Stmt (list (nat * Point3)) :=
  match ns with
  | [] => ret []
  | i :: rest =>
      p <- np_random_rand3 ;;
      ps <- random_positions rest ;;
      ret ((i, p) :: ps)
  end.

(** [pos[i]]: [KeyError] when the key is absent. *)
Fixpoint pos_get (pos : list (nat * Point3)) (i : nat) : Stmt Point3 :=
  match pos with
  | [] => raise (mkExc true (str_nat i))
  | (k, p) :: rest => if (k =? i)%nat then ret p else pos_get rest i
  end.

(** The lines that [plot_3d_network] and [update] have in common: a
    new graph, new positions, then points, edge segments and node
    texts on the 3D axes.  [clear_first] is the [ax2.clear()] of
    [update]; [prefix] is what precedes the index in a node text. *)
Definition draw_network (clear_first : bool) (prefix : string)
  : Stmt unit :=
  G <- erdos_renyi_graph 10 (3 # 10) ;;
  pos <- random_positions (nodes G) ;;
  (if clear_first then ax2_clear else ret tt) ;;;
  ax2_scatter (map snd pos) ;;;
  for_each (edges G) (fun e =>
    pi <- pos_get pos (fst e) ;;
    pj <- pos_get pos (snd e) ;;
    ax2_plot pi pj) ;;;
  for_each pos (fun ip => ax2_text (snd ip) (prefix ++ str_nat (fst ip))).

(** [plot_3d_network(ax)], EEG.py lines 46-70, called on the 3D axes. *)
Definition plot_3d_network : Stmt unit :=
  draw_network false "Node " ;;;
  ax2_set_title "3D Brain Network" ;;;
  ax2_set_xlabel "X" ;;;
  ax2_set_ylabel "Y" ;;;
  ax2_set_zlabel "Z".

(** [EEGApp.__init__]: the window as it opens, with an empty text
    field, the two labels at their captions and an empty figure. *)
Definition init (py np : Rng) : World :=
  mkWorld "" "Mood: " "Brain Network Info: " blank_figure blank_figure
          [] None py np.

(** Where the export of the animation can fail. *)
Inductive Stage : Type :=
| Setup
| Grab (k : nat)
| Finish.

Section App.

Context {cell : Type}.

(** [str] on a value of the array of a table. *)
Variable str_cell : cell -> string.

(** [pd.read_csv(path)]: the table, or the exception raised. *)
Variable pd_read_csv : string -> Res (DataFrame cell).

(** The image writer: the exception it raises at a stage of the
    export, if any. *)
Variable writer_fault : Stage -> option PyExc.

(** [values[:100]] *)
Definition first_100 (vs : list cell) : list cell := firstn 100 vs.

(** The body of the [try] of [load_csv_file], after the read. *)
Definition csv_values (df : DataFrame cell) : list cell :=
  let df := if has_column "label" df then drop "label" df else df in
  first_100 (flatten (values df)).

(** [load_csv_file(self)], EEG.py lines 118-130; [file_path] is what
    the file dialog returned ([""] when it was cancelled). *)
Definition load_csv_file (file_path : string) : Stmt unit :=
  if String.eqb file_path "" then ret tt
  else
    try_except except_Exception
      (df <- (fun w => (pd_read_csv file_path, w)) ;;
       setText_eeg_input (join ", " (map str_cell (csv_values df))))
      (fun e =>
         setText_result_label "Could not read CSV file." ;;;
         setText_network_info_label (exc_str e)).

(** [update(frame)], the closure of [animate]. *)
Definition update (eeg_values : list float64) (frame : nat)
  : Stmt unit :=
  ax1_clear ;;;
  ax1_plot (np_linspace0 frame frame) (firstn frame eeg_values)
           "EEG Data" "b" ;;;
  ax1_set_title "Brain Activity (EEG)" ;;;
  ax1_set_xlabel "Time" ;;;
  ax1_set_ylabel "Amplitude" ;;;
  ax1_legend ;;;
  draw_network true "N" ;;;
  ax2_set_title "Brain Network" ;;;
  ax2_set_xlabel "X" ;;;
  ax2_set_ylabel "Y" ;;;
  ax2_set_zlabel "Z".

Definition check_writer (s : Stage) : Stmt unit :=
  match writer_fault s with
  | Some e => raise e
  | None => ret tt
  end.

(** The frame loop of [ani.save]: draw the frame, then grab the
    figure. *)
Fixpoint save_frames (draw : nat -> Stmt unit) (frames : list nat)
         (k : nat) (grabbed : list Figure) : Stmt (list Figure) :=
  match frames with
  | [] => ret grabbed
  | f :: rest =>
      draw f ;;;
      check_writer (Grab k) ;;;
      w <- get ;;
      save_frames draw rest (S k) (grabbed ++ [figure w])
  end.

(** [ani.save(file, writer=PillowWriter(fps=10))] for a
    [FuncAnimation] over [frames]: the writer is set up, the first
    frame is drawn once to initialise the figure, every frame is
    drawn and grabbed, and the grabbed frames are written out. *)
Definition ani_save (draw : nat -> Stmt unit) (frames : list nat)
  : Stmt unit :=
  check_writer Setup ;;;
  match frames with
  | f :: _ => draw f
  | [] => ret tt
  end ;;;
  grabbed <- save_frames draw frames 0 [] ;;
  check_writer Finish ;;;
  modify (set_gif (Some grabbed)).

(** [animate(self, ax1, ax2, eeg_values)], EEG.py lines 167-194. *)
Definition animate (eeg_values : list float64) : Stmt unit :=
  let frames := np_arange 1 (length eeg_values + 1) in
  try_except except_Exception
    (ani_save (update eeg_values) frames ;;;
     print "Animation saved as GIF.")
    (fun e => print ("Could not save animation: " ++ exc_str e)).

(** [create_animation(self, eeg_values)], EEG.py lines 143-165. *)
Definition create_animation (eeg_values : list float64) : Stmt unit :=
  figure_clf ;;;
  add_subplot_121 ;;;
  add_subplot_122_3d ;;;
  ax1_plot (np_linspace0 (length eeg_values) (length eeg_values))
           eeg_values "EEG Data" "b" ;;;
  ax1_set_title "Brain Activity (EEG)" ;;;
  ax1_set_xlabel "Time" ;;;
  ax1_set_ylabel "Amplitude" ;;;
  ax1_legend ;;;
  plot_3d_network ;;;
  animate eeg_values ;;;
  canvas_draw.

(** [[float(x) for x in tokens]]: the values, or the [ValueError] of
    the first token that [float] rejects.  The text of the error quotes
    the token; no handler of the program reads it. *)
Fixpoint floats_of (tokens : list string) : Stmt (list float64) :=
  match tokens with
  | [] => ret []
  | x :: rest =>
      match float_of_string x with
      | Some v => vs <- floats_of rest ;; ret (v :: vs)
      | None =>
          raise (mkExc true ("could not convert string to float: " ++ x))
      end
  end.

(** [on_button_click(self)], EEG.py lines 132-141. *)
Definition on_button_click : Stmt unit :=
  try_except except_all
    (w <- get ;;
     eeg_values <- floats_of (split "," (eeg_input w)) ;;
     let (mood, info) := predict_mood eeg_values in
     setText_result_label ("Mood: " ++ mood) ;;;
     setText_network_info_label info ;;;
     create_animation eeg_values)
    (fun _ =>
       setText_result_label "Invalid EEG input." ;;;
       setText_network_info_label "Animation failed.").

End App.

End EEG.
Export EEG.
(* ------------------------------------------------------------------ *)
(** ** The mean as the specification words it *)



Definition Neutral : string * string :=
  ("Neutral"%string, "Balanced activity, likely a neutral mood."%string).


(** The cells of a table that the specification keeps: each cell goes with
    the name of its column, the cells of a column named [label] are left
    out wherever that column stands, and the rest is read row after row,
    left to right. *)
Definition remaining_cells {cell : Type} (df : DataFrame cell) : list cell :=
  flat_map
    (fun row =>
       map snd
           (filter (fun named => negb (String.eqb (fst named) "label"))
                   (combine (columns df) row)))
    (values df).

(* ------------------------------------------------------------------ *)
(** ** A sample environment

    Concrete tables, files, generators and writers on which the handlers
    are run in the examples below. *)

Module Sample.

Local Open Scope string_scope.

Definition str_Z (z : Z) : string :=
  DecimalString.NilEmpty.string_of_int (Z.to_int z).

(** Three columns with [label] in the middle, sixty rows: row [i] is
    [2i, -1, 2i+1]. *)
Definition table : DataFrame Z :=
  mkDataFrame ["a"; "label"; "b"]
    (map (fun i => [2 * Z.of_nat i; -1; 2 * Z.of_nat i + 1]%Z) (seq 0 60)).

(** Two columns, none named [label] (the second has a leading space). *)
Definition small_table : DataFrame Z :=
  mkDataFrame ["a"; " label"] [[1; 2]; [3; 4]]%Z.

Definition file_not_found : PyExc :=
  mkExc true "[Errno 2] No such file or directory: 'missing.csv'".

Definition read_csv (path : string) : Res (DataFrame Z) :=
  if String.eqb path "big.csv" then Return table
  else if String.eqb path "small.csv" then Return small_table
  else Raise file_not_found.

Definition rng : Rng :=
  mkRng (fun n => Qmake (Z.of_nat ((7 * n + 3) mod 10)) 10) 0.

Definition world (text : string) : World :=
  set_eeg_input text (init rng rng).

Definition good_writer (s : Stage) : option PyExc := None.

Definition no_pillow : PyExc := mkExc true "No module named 'PIL'".

Definition broken_writer (s : Stage) : option PyExc :=
  match s with
  | Setup => Some no_pillow
  | _ => None
  end.

End Sample.

(* ------------------------------------------------------------------ *)
(** ** Judgements on statements *)

Module Judge.

(** [keeps f m]: however [m] ends, the view [f] of the state is the
    same after it as before. *)
Definition keeps {X A : Type} (f : World -> X) (m : Stmt A) : Prop :=
  forall w, f (snd (m w)) = f w.

(** [yields m P]: from every state [m] returns, without raising, a
    value that satisfies [P]. *)
Definition yields {A : Type} (m : Stmt A) (P : A -> Prop) : Prop :=
  forall w, exists a w', m w = (Return a, w') /\ P a.

(** What the user reads and types outside the drawing: the text field,
    the two labels, the printed lines and the rendered canvas. *)
Definition ui (w : World)
  : string * string * string * list string * Figure :=
  (eeg_input w, result_label w, network_info_label w, stdout w, screen w).

(** The 2D axes of the figure. *)
Definition plot_axes (w : World) : Axes := ax1 (figure w).

(** The 2D axes as [update frame] leaves them. *)
Definition frame_axes (eeg_values : list float64) (frame : nat) : Axes :=
  mkAxes [mkLine (np_linspace0 frame frame) (firstn frame eeg_values)
                 "EEG Data" "b"]
         "Brain Activity (EEG)" "Time" "Amplitude" true.

(** The part of [update] that draws on the 3D axes. *)
Definition update_network : Stmt unit :=
  draw_network true "N" ;;;
  ax2_set_title "Brain Network" ;;;
  ax2_set_xlabel "X" ;;;
  ax2_set_ylabel "Y" ;;;
  ax2_set_zlabel "Z".

End Judge.
Export Judge.

(* ------------------------------------------------------------------ *)
(** ** Further definitions used to state properties *)

Module Further.


(** The values in [xs] that are not finite. *)
Definition is_finite (x : float64) : bool :=
  match x with
  | Finite _ => true
  | _ => false
  end.

(** Text made of white space only. *)
Definition blank_text (s : string) : Prop :=
  Forall (fun c => is_space c = true) (list_ascii_of_string s).

(** [sep not in s]. *)
Definition lacks (sep : ascii) (s : string) : Prop :=
  ~ In sep (list_ascii_of_string s).

End Further.
Export Further.

Module Outcome.



End Outcome.
Export Outcome.

(* ------------------------------------------------------------------ *)
(** ** More sample inputs *)

Module Sample2.

Local Open Scope string_scope.



(** A table of four readings, in two rows. *)
Definition readings : DataFrame Z :=
  mkDataFrame ["a"; "b"] [[1; 2]; [3; 4]]%Z.

Definition read_readings (path : string) : Res (DataFrame Z) :=
  Return readings.






End Sample2.

(* ------------------------------------------------------------------ *)
(** ** What a drawn network looks like *)

Module Denote.

Local Open Scope Q_scope.


(** The candidate pairs that become edges when the values the generator
    hands out from position [c] on are compared with [p], one value per
    pair. *)
Fixpoint chosen_edges (p : Q) (s : nat -> Q) (c : nat)
         (candidates : list (nat * nat)) : list (nat * nat) :=
  match candidates with
  | [] => []
  | e :: rest =>
      if Qltb (s c) p then e :: chosen_edges p s (S c) rest
      else chosen_edges p s (S c) rest
  end.

(** The positions given to the nodes [ns] from the values the generator
    hands out from position [c] on, three values per node. *)
Fixpoint positions_from (s : nat -> Q) (c : nat) (ns : list nat)
  : list (nat * Point3) :=
  match ns with
  | [] => []
  | i :: rest =>
      (i, (s c, s (S c), s (S (S c))))
        :: positions_from s (S (S (S c))) rest
  end.

(** The position of a node that has one. *)
Fixpoint pos_at (pos : list (nat * Point3)) (i : nat) : Point3 :=
  match pos with
  | [] => (0, 0, 0)
  | (k, p) :: rest => if (k =? i)%nat then p else pos_at rest i
  end.

Definition in_unit_cube (p : Point3) : Prop :=
  let '(x, y, z) := p in
  (0 <= x /\ x < 1) /\ (0 <= y /\ y < 1) /\ (0 <= z /\ z < 1).

(** The state after a statement on the 3D axes. *)
Definition with_ax2 (g : Axes3D -> Axes3D) (w : World) : World :=
  set_figure (mkFigure (ax1 (figure w)) (g (ax2 (figure w)))) w.

(** The 3D axes [old] after the points, segments and texts of a graph
    with edges [es] and positions [pos] were added. *)
Definition drawn_axes (prefix : string) (es : list (nat * nat))
           (pos : list (nat * Point3)) (old : Axes3D) : Axes3D :=
  mkAxes3D
    (scatter old ++ map snd pos)
    (segments old
       ++ map (fun e => (pos_at pos (fst e), pos_at pos (snd e))) es)
    (texts old
       ++ map (fun ip => (snd ip, (prefix ++ str_nat (fst ip))%string)) pos)
    (title3 old) (xlabel3 old) (ylabel3 old) (zlabel3 old).

(** The state after [draw_network]: the generators have advanced and
    the 3D axes hold the new graph. *)
Definition drawn_world (clear_first : bool) (prefix : string) (w : World)
  : World :=
  let es := chosen_edges (3 # 10) (stream (py_random w))
                         (cursor (py_random w)) (combinations2 10) in
  let pos := positions_from (stream (np_random w))
                            (cursor (np_random w)) (seq 0 10) in
  with_ax2
    (fun old => drawn_axes prefix es pos
                           (if clear_first then blank_axes3d else old))
    (set_np_random
       (mkRng (stream (np_random w))
              (cursor (np_random w) + 3 * length (seq 0 10)))
       (set_py_random
          (mkRng (stream (py_random w))
                 (cursor (py_random w) + length (combinations2 10)))
          w)).

End Denote.
Export Denote.

Module Labels.

Local Open Scope string_scope.

(** The texts at the nodes of the static network and of a frame. *)
Definition node_labels : list string :=
  ["Node 0"; "Node 1"; "Node 2"; "Node 3"; "Node 4";
   "Node 5"; "Node 6"; "Node 7"; "Node 8"; "Node 9"].

Definition frame_labels : list string :=
  ["N0"; "N1"; "N2"; "N3"; "N4"; "N5"; "N6"; "N7"; "N8"; "N9"].

(** A generator whose values all lie in [0, 1). *)
Definition unit_values (r : Rng) : Prop :=
  forall k, (0 <= stream r k /\ stream r k < 1)%Q.

End Labels.
Export Labels.

(* ------------------------------------------------------------------ *)
(** ** Facts about the mean *)

Section MeanFacts.

Lemma Qltb_lt (a b : Q) : Qltb a b = true <-> a < b.
Proof.
  unfold Qltb. rewrite negb_true_iff. split; intro H.
  - apply Qnot_le_lt. intro Hle. apply Qle_bool_iff in Hle. congruence.
  - destruct (Qle_bool b a) eqn:E; [| reflexivity].
    apply Qle_bool_iff in E. exfalso. exact (Qlt_not_le _ _ H E).
Qed.










End MeanFacts.

(* ------------------------------------------------------------------ *)
(** ** The classifier contract *)





(** C9.  On the empty sequence [predict_mood] answers Neutral: the mean
    is [nan], neither [avg > 2] nor [avg < -2] holds for it, and the
    last branch is taken; nothing is raised. *)
Theorem predict_mood_empty :
  np_mean [] = NaN
  /\ fgt (np_mean []) (Finite 2) = false
  /\ flt (np_mean []) (Finite (-2)) = false
  /\ predict_mood [] = Neutral.
Proof.
  repeat split.
Qed.

(* ------------------------------------------------------------------ *)
(** ** Loading a table *)

Local Close Scope Q_scope.

Section LoadFacts.

Context {cell : Type}.
Variable str_cell : cell -> string.
Variable pd_read_csv : string -> Res (DataFrame cell).

Lemma select_as_filter (name : string) (cols : list string)
      (row : list cell) :
  select (map (fun c => negb (String.eqb name c)) cols) row
  = map snd (filter (fun named => negb (String.eqb (fst named) name))
                    (combine cols row)).
Proof.
  revert row. induction cols as [| c cols IH]; intros [| x row]; simpl;
    try reflexivity.
  rewrite (String.eqb_sym c name).
  destruct (String.eqb name c); simpl; rewrite IH; reflexivity.
Qed.

Lemma filter_absent_column (name : string) (cols : list string)
      (row : list cell) :
  existsb (String.eqb name) cols = false ->
  length row = length cols ->
  map snd (filter (fun named => negb (String.eqb (fst named) name))
                  (combine cols row)) = row.
Proof.
  revert row. induction cols as [| c cols IH]; intros [| x row] Hno Hlen;
    simpl in *; try reflexivity; try discriminate.
  apply orb_false_elim in Hno. destruct Hno as [Hc Hrest].
  rewrite (String.eqb_sym c name), Hc. simpl.
  rewrite IH; [reflexivity | exact Hrest | congruence].
Qed.

(** The values [load_csv_file] keeps are the first hundred of the cells
    outside the [label] column. *)
Lemma csv_values_remaining (df : DataFrame cell) :
  rectangular df ->
  csv_values df = firstn 100 (remaining_cells df).
Proof.
  intro Hrect. unfold csv_values, first_100, remaining_cells, flatten.
  f_equal. rewrite flat_map_concat_map. f_equal.
  destruct (has_column "label" df) eqn:Hcol.
  - unfold drop. cbn [values columns]. apply map_ext. intro row.
    apply select_as_filter.
  - unfold rectangular in Hrect. rewrite Forall_forall in Hrect.
    rewrite <- (map_id (values df)) at 1.
    apply map_ext_in. intros row Hin. symmetry.
    apply filter_absent_column; [exact Hcol | apply Hrect; exact Hin].
Qed.

Lemma load_csv_file_reads (path : string) (df : DataFrame cell)
      (w : World) :
  path <> EmptyString ->
  pd_read_csv path = Return df ->
  load_csv_file str_cell pd_read_csv path w
  = (Return tt,
     set_eeg_input (join ", " (map str_cell (csv_values df))) w).
Proof.
  intros Hpath Hread. unfold load_csv_file.
  destruct (String.eqb path "") eqn:E.
  - apply String.eqb_eq in E. contradiction.
  - unfold try_except, bind. rewrite Hread. reflexivity.
Qed.

(** C3.  When the file is read, [load_csv_file] leaves out the cells of
    a column named exactly [label], wherever that column stands, reads
    the remaining cells row after row, and keeps at most the first
    hundred of them: exactly one hundred when there are more, and all
    of them, unchanged, when there are a hundred or fewer.  The text
    field receives the kept values joined by a comma and a space. *)
Theorem load_csv_file_values (path : string) (df : DataFrame cell)
        (w : World) :
  path <> EmptyString ->
  pd_read_csv path = Return df ->
  rectangular df ->
  load_csv_file str_cell pd_read_csv path w
  = (Return tt,
     set_eeg_input
       (join ", " (map str_cell (firstn 100 (remaining_cells df)))) w)
  /\ csv_values df = firstn 100 (remaining_cells df)
  /\ (100 < length (remaining_cells df) ->
      length (csv_values df) = 100)
  /\ (length (remaining_cells df) <= 100 ->
      csv_values df = remaining_cells df).
Proof.
  intros Hpath Hread Hrect.
  pose proof (csv_values_remaining df Hrect) as Hv.
  split; [| split; [exact Hv | split]].
  - rewrite <- Hv. apply load_csv_file_reads; assumption.
  - intro Hlong. rewrite Hv, length_firstn. lia.
  - intro Hshort. rewrite Hv. apply firstn_all2. exact Hshort.
Qed.


(** C10.  When the read fails, the text field keeps its content: the
    new text is written only after the read, the label drop and the
    truncation. *)
Theorem load_csv_file_failure_keeps_input (path : string) (e : PyExc)
        (w : World) :
  pd_read_csv path = Raise e ->
  eeg_input (snd (load_csv_file str_cell pd_read_csv path w))
  = eeg_input w.
Proof.
  intro Hread. unfold load_csv_file.
  destruct (String.eqb path ""); [reflexivity |].
  unfold try_except, bind, except_Exception. rewrite Hread.
  destruct (exc_is_Exception e); reflexivity.
Qed.

End LoadFacts.

Lemma load_csv_file_values_witness :
  eeg_input (snd (load_csv_file Sample.str_Z Sample.read_csv "big.csv"
                                (Sample.world "1, 2")))
  = join ", " (map Sample.str_Z (map Z.of_nat (seq 0 100)))
  /\ length (csv_values Sample.table) = 100.
Proof.
  assert (Hpath : "big.csv"%string <> EmptyString) by discriminate.
  assert (Hread : Sample.read_csv "big.csv" = Return Sample.table)
    by reflexivity.
  assert (Hrect : rectangular Sample.table)
    by (unfold rectangular; simpl; repeat constructor).
  destruct (load_csv_file_values Sample.str_Z Sample.read_csv "big.csv"
              Sample.table (Sample.world "1, 2") Hpath Hread Hrect)
    as (Hrun & _ & Hlong & _).
  split.
  - rewrite Hrun. reflexivity.
  - apply Hlong. vm_compute. lia.
Defined.


Lemma load_csv_file_failure_keeps_input_witness :
  eeg_input (snd (load_csv_file Sample.str_Z Sample.read_csv "missing.csv"
                                (Sample.world "1, 2")))
  = "1, 2"%string.
Proof.
  apply (load_csv_file_failure_keeps_input Sample.str_Z Sample.read_csv
           "missing.csv" Sample.file_not_found (Sample.world "1, 2")).
  reflexivity.
Defined.

(** A column whose name only resembles [label] is kept. *)
Example load_csv_file_near_label :
  csv_values Sample.small_table = [1; 2; 3; 4]%Z.
Proof. reflexivity. Qed.

(* ------------------------------------------------------------------ *)
(** ** The predict action on text that does not parse *)

Section ClickFacts.

Variable writer_fault : Stage -> option PyExc.



End ClickFacts.


(** The empty text has one empty token, which [float] rejects. *)
Example float_of_empty_text :
  split "," "" = [""%string] /\ float_of_string "" = None.
Proof. split; reflexivity. Qed.

(** [float] takes the words [nan] and [inf]: such a token is not a parse
    error, and the action goes on to classify. *)
Example float_of_special_words :
  float_of_string "nan" = Some NaN
  /\ float_of_string " -Infinity" = Some NegInf
  /\ result_label (snd (on_button_click Sample.good_writer
                                        (Sample.world "nan")))
     = "Mood: Neutral"%string.
Proof. repeat split; vm_compute; reflexivity. Qed.

(* ------------------------------------------------------------------ *)
(** ** Rules for [keeps] and [yields] *)

Section JudgeRules.

Context {X : Type} (f : World -> X).

Lemma keeps_ret {A : Type} (a : A) : keeps f (ret a).
Proof. intro w. reflexivity. Qed.

Lemma keeps_raise {A : Type} (e : PyExc) : keeps f (raise (A := A) e).
Proof. intro w. reflexivity. Qed.

Lemma keeps_get : keeps f get.
Proof. intro w. reflexivity. Qed.

Lemma keeps_bind {A B : Type} (m : Stmt A) (k : A -> Stmt B) :
  keeps f m -> (forall a, keeps f (k a)) -> keeps f (bind m k).
Proof.
  intros Hm Hk w. unfold bind. specialize (Hm w).
  destruct (m w) as [[a | e] w1]; simpl in *.
  - rewrite Hk. exact Hm.
  - exact Hm.
Qed.

Lemma keeps_modify (g : World -> World) :
  (forall w, f (g w) = f w) -> keeps f (modify g).
Proof. intros Hg w. apply Hg. Qed.

Lemma keeps_try_except (catches : PyExc -> bool) (body : Stmt unit)
      (handler : PyExc -> Stmt unit) :
  keeps f body -> (forall e, keeps f (handler e)) ->
  keeps f (try_except catches body handler).
Proof.
  intros Hb Hh w. unfold try_except. specialize (Hb w).
  destruct (body w) as [[a | e] w1]; simpl in *.
  - exact Hb.
  - destruct (catches e); simpl; [rewrite Hh |]; exact Hb.
Qed.

Lemma keeps_for_each {A : Type} (xs : list A) (body : A -> Stmt unit) :
  (forall x, keeps f (body x)) -> keeps f (for_each xs body).
Proof.
  intro Hb. induction xs as [| x xs IH]; simpl.
  - apply keeps_ret.
  - apply keeps_bind; [apply Hb | intros _; exact IH].
Qed.

End JudgeRules.

Section YieldRules.

Lemma yields_ret {A : Type} (a : A) (P : A -> Prop) :
  P a -> yields (ret a) P.
Proof. intros Ha w. exists a, w. split; [reflexivity | exact Ha]. Qed.

Lemma yields_bind {A B : Type} (m : Stmt A) (k : A -> Stmt B)
      (P : A -> Prop) (Q : B -> Prop) :
  yields m P -> (forall a, P a -> yields (k a) Q) -> yields (bind m k) Q.
Proof.
  intros Hm Hk w. destruct (Hm w) as (a & w1 & E & Ha).
  destruct (Hk a Ha w1) as (b & w2 & E' & Hb).
  exists b, w2. unfold bind. rewrite E. split; assumption.
Qed.

Lemma yields_modify (g : World -> World) :
  yields (modify g) (fun _ => True).
Proof. intro w. exists tt, (g w). split; [reflexivity | exact I]. Qed.

Lemma yields_weaken {A : Type} (m : Stmt A) (P Q : A -> Prop) :
  yields m P -> (forall a, P a -> Q a) -> yields m Q.
Proof.
  intros Hm HPQ w. destruct (Hm w) as (a & w1 & E & Ha).
  exists a, w1. split; [exact E | apply HPQ; exact Ha].
Qed.

Lemma yields_for_each {A : Type} (xs : list A) (body : A -> Stmt unit) :
  (forall x, In x xs -> yields (body x) (fun _ => True)) ->
  yields (for_each xs body) (fun _ => True).
Proof.
  induction xs as [| x xs IH]; intro Hb; simpl.
  - apply yields_ret. exact I.
  - apply yields_bind with (P := fun _ => True).
    + apply Hb. left. reflexivity.
    + intros _ _. apply IH. intros y Hy. apply Hb. right. exact Hy.
Qed.

End YieldRules.

(* ------------------------------------------------------------------ *)
(** ** The random network *)

Section NetworkFacts.

Lemma keeps_add_random_edges {X : Type} (f : World -> X) (p : Q)
      (cands : list (nat * nat)) :
  (forall r w, f (set_py_random r w) = f w) ->
  keeps f (add_random_edges p cands).
Proof.
  intro Hf. induction cands as [| c cands IH]; simpl.
  - apply keeps_ret.
  - apply keeps_bind; [intro w; apply Hf | intro r].
    apply keeps_bind; [exact IH | intro es; apply keeps_ret].
Qed.

Lemma keeps_erdos_renyi_graph {X : Type} (f : World -> X) (n : nat)
      (p : Q) :
  (forall r w, f (set_py_random r w) = f w) ->
  keeps f (erdos_renyi_graph n p).
Proof.
  intro Hf. unfold erdos_renyi_graph.
  destruct (Qle_bool p 0); [apply keeps_ret |].
  destruct (Qle_bool 1 p); [apply keeps_ret |].
  apply keeps_bind; [apply keeps_add_random_edges; exact Hf |].
  intro es. apply keeps_ret.
Qed.

Lemma keeps_random_positions {X : Type} (f : World -> X)
      (ns : list nat) :
  (forall r w, f (set_np_random r w) = f w) ->
  keeps f (random_positions ns).
Proof.
  intro Hf. induction ns as [| i ns IH]; simpl.
  - apply keeps_ret.
  - apply keeps_bind.
    + unfold np_random_rand3.
      repeat (apply keeps_bind; [intro w; apply Hf | intro]).
      apply keeps_ret.
    + intro p. apply keeps_bind; [exact IH | intro; apply keeps_ret].
Qed.

Lemma keeps_pos_get {X : Type} (f : World -> X)
      (pos : list (nat * Point3)) (i : nat) :
  keeps f (pos_get pos i).
Proof.
  induction pos as [| [k p] pos IH]; simpl.
  - apply keeps_raise.
  - destruct (k =? i); [apply keeps_ret | exact IH].
Qed.

(** Drawing the network leaves alone whatever does not look at the 3D
    axes or at the generators. *)
Lemma keeps_draw_network {X : Type} (f : World -> X) (clear_first : bool)
      (prefix : string) :
  (forall r w, f (set_py_random r w) = f w) ->
  (forall r w, f (set_np_random r w) = f w) ->
  (forall g w, f (set_figure (mkFigure (ax1 (figure w)) g) w) = f w) ->
  keeps f (draw_network clear_first prefix).
Proof.
  intros Hpy Hnp Hfig.
  assert (Hax2 : forall g, keeps f (on_ax2 g)).
  { intros g w. apply Hfig. }
  unfold draw_network.
  apply keeps_bind; [apply keeps_erdos_renyi_graph; exact Hpy | intro G].
  apply keeps_bind; [apply keeps_random_positions; exact Hnp | intro pos].
  apply keeps_bind.
  { destruct clear_first; [apply Hax2 | apply keeps_ret]. }
  intros _. apply keeps_bind; [apply Hax2 | intros _].
  apply keeps_bind.
  - apply keeps_for_each. intro e.
    apply keeps_bind; [apply keeps_pos_get | intro p1].
    apply keeps_bind; [apply keeps_pos_get | intro p2]. apply Hax2.
  - intros _. apply keeps_for_each. intro ip. apply Hax2.
Qed.

Lemma yields_add_random_edges (p : Q) (cands : list (nat * nat)) :
  yields (add_random_edges p cands) (fun es => incl es cands).
Proof.
  induction cands as [| c cands IH]; simpl.
  - apply yields_ret. apply incl_refl.
  - apply yields_bind with (P := fun _ => True).
    { intro w. eexists _, _. split; [reflexivity | exact I]. }
    intros r _.
    apply yields_bind with (P := fun es => incl es cands); [exact IH |].
    intros es Hes. apply yields_ret.
    destruct (Qltb r p).
    + intros x [-> | Hx]; [left; reflexivity | right; apply Hes; exact Hx].
    + apply incl_tl. exact Hes.
Qed.

(** The graph has the nodes [0 .. n-1], and its edges are among the
    pairs [i < j] of nodes. *)
Lemma yields_erdos_renyi_graph (n : nat) (p : Q) :
  yields (erdos_renyi_graph n p)
         (fun G => nodes G = seq 0 n /\ incl (edges G) (combinations2 n)).
Proof.
  unfold erdos_renyi_graph.
  destruct (Qle_bool p 0).
  { apply yields_ret. split; [reflexivity | intros x []]. }
  destruct (Qle_bool 1 p).
  { apply yields_ret. split; [reflexivity | apply incl_refl]. }
  eapply yields_bind; [apply yields_add_random_edges |].
  intros es Hes. apply yields_ret. split; [reflexivity | exact Hes].
Qed.

Lemma combinations2_bound (n : nat) (e : nat * nat) :
  In e (combinations2 n) -> fst e < snd e /\ snd e < n.
Proof.
  unfold combinations2. rewrite in_flat_map.
  intros (i & Hi & He). rewrite in_map_iff in He.
  destruct He as (j & <- & Hj). rewrite in_seq in Hi, Hj. simpl. lia.
Qed.

Lemma yields_random_positions (ns : list nat) :
  yields (random_positions ns) (fun pos => map fst pos = ns).
Proof.
  induction ns as [| i ns IH]; simpl.
  - apply yields_ret. reflexivity.
  - apply yields_bind with (P := fun _ => True).
    { intro w. eexists _, _. split; [reflexivity | exact I]. }
    intros p _.
    apply yields_bind with (P := fun pos => map fst pos = ns); [exact IH |].
    intros pos Hpos. apply yields_ret. simpl. rewrite Hpos. reflexivity.
Qed.

(** [pos[i]] does not raise on a key of the dictionary. *)
Lemma yields_pos_get (pos : list (nat * Point3)) (i : nat) :
  In i (map fst pos) -> yields (pos_get pos i) (fun _ => True).
Proof.
  induction pos as [| [k p] pos IH]; simpl; intro Hin.
  - contradiction.
  - destruct (k =? i) eqn:E.
    + apply yields_ret. exact I.
    + apply IH. destruct Hin as [-> | Hin].
      * rewrite Nat.eqb_refl in E. discriminate.
      * exact Hin.
Qed.

(** Drawing the network always goes through: every edge joins two
    nodes that have a position. *)
Lemma yields_draw_network (clear_first : bool) (prefix : string) :
  yields (draw_network clear_first prefix) (fun _ => True).
Proof.
  unfold draw_network.
  eapply yields_bind; [apply yields_erdos_renyi_graph |].
  intros G [Hnodes Hedges].
  eapply yields_bind; [apply yields_random_positions |].
  intros pos Hpos. cbv beta in Hpos.
  apply yields_bind with (P := fun _ => True).
  { destruct clear_first; [apply yields_modify | apply yields_ret; exact I]. }
  intros _ _.
  apply yields_bind with (P := fun _ => True); [apply yields_modify |].
  intros _ _.
  assert (Hkey : forall e, In e (edges G) ->
                           In (fst e) (map fst pos)
                           /\ In (snd e) (map fst pos)).
  { intros e He. apply Hedges in He. apply combinations2_bound in He.
    rewrite Hpos, Hnodes. rewrite !in_seq. lia. }
  apply yields_bind with (P := fun _ => True).
  - apply yields_for_each. intros e He. destruct (Hkey e He) as [H1 H2].
    apply yields_bind with (P := fun _ => True);
      [apply yields_pos_get; exact H1 | intros p1 _].
    apply yields_bind with (P := fun _ => True);
      [apply yields_pos_get; exact H2 | intros p2 _].
    apply yields_modify.
  - intros _ _. apply yields_for_each. intros ip _. apply yields_modify.
Qed.

(** What can be said of a network snapshot without probabilities: ten
    nodes, numbered from 0, and edges among the 45 pairs of nodes. *)
Lemma network_snapshot_shape :
  length (combinations2 10) = 45
  /\ yields (erdos_renyi_graph 10 (3 # 10))
            (fun G => nodes G = [0; 1; 2; 3; 4; 5; 6; 7; 8; 9]
                      /\ incl (edges G) (combinations2 10)).
Proof.
  split; [reflexivity |]. apply (yields_erdos_renyi_graph 10 (3 # 10)).
Qed.

End NetworkFacts.

(* ------------------------------------------------------------------ *)
(** ** The animation *)

Section AnimateFacts.

Variable writer_fault : Stage -> option PyExc.

Lemma np_linspace0_length (stop num : nat) :
  length (np_linspace0 stop num) = num.
Proof.
  destruct num as [| [| m]]; try reflexivity.
  unfold np_linspace0. rewrite length_map, length_seq. reflexivity.
Qed.

Lemma np_arange_frames (n : nat) : np_arange 1 (n + 1) = seq 1 n.
Proof. unfold np_arange. f_equal. lia. Qed.

Lemma bind_modify {B : Type} (g : World -> World) (k : unit -> Stmt B)
      (w : World) :
  bind (modify g) k w = k tt (g w).
Proof. reflexivity. Qed.

Lemma ax1_plot_same_length (x y : list float64) (lbl col : string) :
  length x = length y ->
  ax1_plot x y lbl col
  = on_ax1 (fun a => mkAxes (lines a ++ [mkLine x y lbl col])
                            (title a) (xlabel a) (ylabel a) (legend a)).
Proof.
  intro H. unfold ax1_plot. rewrite H, Nat.eqb_refl. reflexivity.
Qed.

Lemma keeps_ui_on_ax1 (g : Axes -> Axes) : keeps ui (on_ax1 g).
Proof. intro w. reflexivity. Qed.

Lemma keeps_ui_on_ax2 (g : Axes3D -> Axes3D) : keeps ui (on_ax2 g).
Proof. intro w. reflexivity. Qed.

Lemma keeps_ui_draw_network (clear_first : bool) (prefix : string) :
  keeps ui (draw_network clear_first prefix).
Proof. apply keeps_draw_network; intros; reflexivity. Qed.

Lemma keeps_plot_axes_draw_network (clear_first : bool)
      (prefix : string) :
  keeps plot_axes (draw_network clear_first prefix).
Proof. apply keeps_draw_network; intros; reflexivity. Qed.

Lemma update_network_facts :
  yields update_network (fun _ => True)
  /\ keeps ui update_network
  /\ keeps plot_axes update_network.
Proof.
  unfold update_network. split; [| split].
  - apply yields_bind with (P := fun _ => True);
      [apply yields_draw_network | intros _ _].
    repeat (apply yields_bind with (P := fun _ => True);
            [apply yields_modify | intros _ _]).
    apply yields_modify.
  - apply keeps_bind; [apply keeps_ui_draw_network | intros _].
    repeat (apply keeps_bind; [apply keeps_ui_on_ax2 | intros _]).
    apply keeps_ui_on_ax2.
  - apply keeps_bind; [apply keeps_plot_axes_draw_network | intros _].
    repeat (apply keeps_bind; [intro w; reflexivity | intros _]).
    intro w. reflexivity.
Qed.

Lemma update_split (eeg_values : list float64) (frame : nat) :
  update eeg_values frame
  = (ax1_clear ;;;
     ax1_plot (np_linspace0 frame frame) (firstn frame eeg_values)
              "EEG Data" "b" ;;;
     ax1_set_title "Brain Activity (EEG)" ;;;
     ax1_set_xlabel "Time" ;;;
     ax1_set_ylabel "Amplitude" ;;;
     ax1_legend ;;;
     update_network).
Proof. unfold update, update_network. reflexivity. Qed.

Lemma keeps_ui_update (eeg_values : list float64) (frame : nat) :
  keeps ui (update eeg_values frame).
Proof.
  rewrite update_split.
  apply keeps_bind; [apply keeps_ui_on_ax1 | intros _].
  apply keeps_bind.
  { unfold ax1_plot. destruct (_ =? _);
      [apply keeps_ui_on_ax1 | apply keeps_raise]. }
  intros _.
  do 4 (apply keeps_bind; [apply keeps_ui_on_ax1 | intros _]).
  apply update_network_facts.
Qed.

(** A frame within the sequence is drawn without error; it leaves one
    line on the 2D axes, over the first [frame] readings. *)
Lemma update_runs (eeg_values : list float64) (frame : nat) (w : World) :
  frame <= length eeg_values ->
  exists w',
    update eeg_values frame w = (Return tt, w')
    /\ plot_axes w' = frame_axes eeg_values frame
    /\ ui w' = ui w.
Proof.
  intro Hle.
  assert (Hlen : length (np_linspace0 frame frame)
                 = length (firstn frame eeg_values)).
  { rewrite np_linspace0_length, length_firstn. lia. }
  destruct update_network_facts as (Hy & _ & Hax).
  pose proof (keeps_ui_update eeg_values frame w) as Hkeep.
  assert (Hplot : exists w1,
             update eeg_values frame w = update_network w1
             /\ plot_axes w1 = frame_axes eeg_values frame).
  { eexists. split.
    - rewrite update_split, (ax1_plot_same_length _ _ _ _ Hlen).
      unfold ax1_clear, ax1_set_title, ax1_set_xlabel, ax1_set_ylabel,
        ax1_legend, on_ax1.
      do 6 (rewrite bind_modify; cbv beta).
      reflexivity.
    - reflexivity. }
  destruct Hplot as (w1 & E1 & Hw1).
  destruct (Hy w1) as ([] & w' & E & _).
  specialize (Hax w1).
  rewrite E1 in Hkeep. rewrite E in Hkeep, Hax.
  exists w'. split; [rewrite E1; exact E | split].
  - rewrite <- Hw1. exact Hax.
  - exact Hkeep.
Qed.

Lemma check_writer_quiet (s : Stage) :
  writer_fault s = None -> check_writer writer_fault s = ret tt.
Proof. intro H. unfold check_writer. rewrite H. reflexivity. Qed.

Lemma keeps_ui_check_writer (s : Stage) :
  keeps ui (check_writer writer_fault s).
Proof.
  unfold check_writer. destruct (writer_fault s);
    [apply keeps_raise | apply keeps_ret].
Qed.

Lemma keeps_ui_save_frames (draw : nat -> Stmt unit) (frames : list nat) :
  (forall f, keeps ui (draw f)) ->
  forall k grabbed,
    keeps ui (save_frames writer_fault draw frames k grabbed).
Proof.
  intro Hdraw. induction frames as [| f rest IH]; intros k grabbed; simpl.
  - apply keeps_ret.
  - apply keeps_bind; [apply Hdraw | intros _].
    apply keeps_bind; [apply keeps_ui_check_writer | intros _].
    apply keeps_bind; [apply keeps_get | intro w]. apply IH.
Qed.

(** Whatever happens during the export, the text field, the labels,
    the printed lines and the rendered canvas are not touched by it. *)
Lemma keeps_ui_ani_save (draw : nat -> Stmt unit) (frames : list nat) :
  (forall f, keeps ui (draw f)) ->
  keeps ui (ani_save writer_fault draw frames).
Proof.
  intro Hdraw. unfold ani_save.
  apply keeps_bind; [apply keeps_ui_check_writer | intros _].
  apply keeps_bind.
  { destruct frames; [apply keeps_ret | apply Hdraw]. }
  intros _.
  apply keeps_bind; [apply keeps_ui_save_frames; exact Hdraw | intro figs].
  apply keeps_bind; [apply keeps_ui_check_writer | intros _].
  apply keeps_modify. intro w. reflexivity.
Qed.

Section GoodWriter.

Hypothesis no_fault : forall s, writer_fault s = None.

Variable eeg_values : list float64.

Lemma save_frames_runs (frames : list nat) :
  Forall (fun f => f <= length eeg_values) frames ->
  forall k grabbed w,
  exists figs w',
    save_frames writer_fault (update eeg_values) frames k grabbed w
    = (Return (grabbed ++ figs), w')
    /\ Forall2 (fun f fig => ax1 fig = frame_axes eeg_values f)
               frames figs
    /\ ui w' = ui w.
Proof.
  induction 1 as [| f rest Hf _ IH]; intros k grabbed w; simpl.
  - exists [], w. rewrite app_nil_r. repeat split. constructor.
  - destruct (update_runs eeg_values f w Hf) as (w1 & E1 & Hax & Hui).
    destruct (IH (S k) (grabbed ++ [figure w1]) w1)
      as (figs & w2 & E2 & HF & Hui2).
    exists (figure w1 :: figs), w2.
    unfold bind at 1. rewrite E1.
    rewrite (check_writer_quiet _ (no_fault (Grab k))).
    unfold bind, ret, get. cbv beta iota.
    rewrite E2, <- app_assoc. simpl.
    split; [reflexivity | split].
    + constructor; [exact Hax | exact HF].
    + rewrite Hui2. exact Hui.
Qed.

Lemma ani_save_runs (frames : list nat) (w : World) :
  Forall (fun f => f <= length eeg_values) frames ->
  exists figs w',
    ani_save writer_fault (update eeg_values) frames w = (Return tt, w')
    /\ gif w' = Some figs
    /\ Forall2 (fun f fig => ax1 fig = frame_axes eeg_values f)
               frames figs
    /\ ui w' = ui w.
Proof.
  intro Hall. unfold ani_save.
  rewrite !(check_writer_quiet _ (no_fault _)).
  assert (Hinit : exists w0,
             match frames with
             | f :: _ => update eeg_values f
             | [] => ret tt
             end w = (Return tt, w0) /\ ui w0 = ui w).
  { destruct Hall as [| f rest Hf _].
    - exists w. split; reflexivity.
    - destruct (update_runs eeg_values f w Hf) as (w0 & E & _ & Hui).
      exists w0. split; assumption. }
  destruct Hinit as (w0 & E0 & Hui0).
  destruct (save_frames_runs frames Hall 0 [] w0)
    as (figs & w1 & E1 & HF & Hui1).
  exists figs, (set_gif (Some figs) w1).
  unfold bind at 1. unfold ret at 1. cbv beta iota.
  unfold bind at 1. rewrite E0.
  unfold bind at 1. rewrite E1. simpl.
  split; [reflexivity | split; [reflexivity | split; [exact HF |]]].
  change (ui (set_gif (Some figs) w1)) with (ui w1).
  rewrite Hui1. exact Hui0.
Qed.

(** With a writer that works, [animate] returns normally, the image
    file holds one frame per reading, and the line of success is
    printed. *)
Lemma animate_runs (w : World) :
  exists figs w',
    animate writer_fault eeg_values w = (Return tt, w')
    /\ gif w' = Some figs
    /\ Forall2 (fun f fig => ax1 fig = frame_axes eeg_values f)
               (seq 1 (length eeg_values)) figs
    /\ stdout w' = stdout w ++ ["Animation saved as GIF."%string].
Proof.
  assert (Hall : Forall (fun f => f <= length eeg_values)
                        (seq 1 (length eeg_values))).
  { apply Forall_forall. intros f Hf. apply in_seq in Hf. lia. }
  destruct (ani_save_runs _ w Hall) as (figs & w1 & E & Hgif & HF & Hui).
  exists figs, (set_stdout (stdout w1 ++ ["Animation saved as GIF."%string]) w1).
  unfold animate. rewrite np_arange_frames.
  unfold try_except, bind. rewrite E. simpl.
  split; [reflexivity | split; [exact Hgif | split; [exact HF |]]].
  unfold ui in Hui. congruence.
Qed.

End GoodWriter.

Lemma nth_error_seq_from (a n i : nat) :
  i < n -> nth_error (seq a n) i = Some (a + i).
Proof.
  revert a i. induction n as [| n IH]; intros a i Hi; [lia |].
  destruct i as [| i]; simpl.
  - f_equal. lia.
  - rewrite IH by lia. f_equal. lia.
Qed.

Lemma Forall2_at {A B : Type} (R : A -> B -> Prop) (xs : list A)
      (ys : list B) (i : nat) (x : A) :
  Forall2 R xs ys -> nth_error xs i = Some x ->
  exists y, nth_error ys i = Some y /\ R x y.
Proof.
  intro HF. revert i. induction HF as [| x0 y0 xs ys Hxy _ IH];
    intros [| i] Hx; simpl in *; try discriminate.
  - injection Hx as <-. exists y0. split; [reflexivity | exact Hxy].
  - apply IH. exact Hx.
Qed.

(** C4.  For a non-empty reading sequence the frames of the animation
    are indexed from 1 to the length of the sequence, so there are as
    many frames as readings; drawing frame [f] leaves on the 2D axes
    one line whose data are the first [f] readings; and the exported
    animation holds these frames in order. *)
Theorem animate_frames (eeg_values : list float64) :
  eeg_values <> [] ->
  let n := length eeg_values in
  let frames := np_arange 1 (n + 1) in
  (frames = seq 1 n
   /\ length frames = n
   /\ forall f, In f frames <-> 1 <= f <= n)
  /\ (forall f w, In f frames ->
       exists w',
         update eeg_values f w = (Return tt, w')
         /\ lines (ax1 (figure w'))
            = [mkLine (np_linspace0 f f) (firstn f eeg_values)
                      "EEG Data" "b"]
         /\ length (firstn f eeg_values) = f)
  /\ ((forall s, writer_fault s = None) ->
      forall w,
      exists w' figs,
        animate writer_fault eeg_values w = (Return tt, w')
        /\ gif w' = Some figs
        /\ length figs = n
        /\ forall f, In f frames ->
             exists fig,
               nth_error figs (f - 1) = Some fig
               /\ lines (ax1 fig)
                  = [mkLine (np_linspace0 f f) (firstn f eeg_values)
                            "EEG Data" "b"]).
Proof.
  intros _ n frames. subst frames.
  rewrite np_arange_frames.
  assert (Hin : forall f, In f (seq 1 n) <-> 1 <= f <= n).
  { intro f. rewrite in_seq. lia. }
  split; [| split].
  - split; [reflexivity | split; [apply length_seq | exact Hin]].
  - intros f w Hf. apply Hin in Hf.
    destruct (update_runs eeg_values f w) as (w' & E & Hax & _);
      [subst n; lia |].
    exists w'. split; [exact E | split].
    + unfold plot_axes in Hax. rewrite Hax. reflexivity.
    + rewrite length_firstn. subst n. lia.
  - intros Hgood w.
    destruct (animate_runs Hgood eeg_values w)
      as (figs & w' & E & Hgif & HF & _).
    exists w', figs.
    split; [exact E | split; [exact Hgif | split]].
    + rewrite <- (Forall2_length HF). apply length_seq.
    + intros f Hf. apply Hin in Hf.
      assert (Hnth : nth_error (seq 1 (length eeg_values)) (f - 1)
                     = Some f).
      { rewrite nth_error_seq_from by (subst n; lia). f_equal. lia. }
      destruct (Forall2_at _ _ _ _ _ HF Hnth) as (fig & Hfig & Hax).
      exists fig. split; [exact Hfig |].
      cbv beta in Hax. rewrite Hax. reflexivity.
Qed.

(** C7.  When the export of the animation raises an error, [animate]
    catches it and returns normally; the failure is printed on the
    diagnostic stream, and the text field and the two labels of the
    window stay as they were. *)
Theorem animate_export_failure (eeg_values : list float64)
        (w w1 : World) (e : PyExc) :
  ani_save writer_fault (update eeg_values)
           (np_arange 1 (length eeg_values + 1)) w = (Raise e, w1) ->
  exc_is_Exception e = true ->
  exists w',
    animate writer_fault eeg_values w = (Return tt, w')
    /\ stdout w'
       = stdout w ++ [("Could not save animation: " ++ exc_str e)%string]
    /\ result_label w' = result_label w
    /\ network_info_label w' = network_info_label w
    /\ eeg_input w' = eeg_input w
    /\ screen w' = screen w.
Proof.
  intros Hfail Hexc.
  pose proof (keeps_ui_ani_save (update eeg_values)
                (np_arange 1 (length eeg_values + 1))
                (keeps_ui_update eeg_values) w) as Hui.
  rewrite Hfail in Hui. simpl in Hui. unfold ui in Hui.
  injection Hui as H1 H2 H3 H4 H5.
  eexists. unfold animate, try_except, bind, except_Exception.
  rewrite Hfail, Hexc. unfold print, modify.
  split; [reflexivity |]. simpl.
  rewrite H1, H2, H3, H4, H5. repeat split.
Qed.

(** A writer that cannot be set up makes the export fail at once. *)
Lemma ani_save_setup_fault (draw : nat -> Stmt unit) (frames : list nat)
      (e : PyExc) (w : World) :
  writer_fault Setup = Some e ->
  ani_save writer_fault draw frames w = (Raise e, w).
Proof.
  intro H. unfold ani_save, bind, check_writer. rewrite H. reflexivity.
Qed.

End AnimateFacts.

Lemma animate_frames_witness :
  exists w' figs,
    animate Sample.good_writer (map Finite [1; 4; 2]%Q) (Sample.world "1,4,2")
    = (Return tt, w')
    /\ gif w' = Some figs
    /\ length figs = 3.
Proof.
  assert (Hne : map Finite [1; 4; 2]%Q <> []) by discriminate.
  destruct (animate_frames Sample.good_writer (map Finite [1; 4; 2]%Q) Hne)
    as (_ & _ & Hsave).
  destruct (Hsave (fun _ => eq_refl) (Sample.world "1,4,2"))
    as (w' & figs & E & Hgif & Hlen & _).
  exists w', figs. split; [exact E | split; [exact Hgif | exact Hlen]].
Defined.

Lemma animate_export_failure_witness :
  exists w',
    animate Sample.broken_writer (map Finite [1; 4; 2]%Q)
            (Sample.world "1,4,2") = (Return tt, w')
    /\ stdout w' = ["Could not save animation: No module named 'PIL'"%string]
    /\ result_label w' = "Mood: "%string.
Proof.
  destruct (animate_export_failure Sample.broken_writer
              (map Finite [1; 4; 2]%Q) (Sample.world "1,4,2")
              (Sample.world "1,4,2") Sample.no_pillow)
    as (w' & E & Hout & Hres & _).
  - apply ani_save_setup_fault. reflexivity.
  - reflexivity.
  - exists w'. split; [exact E | split; [exact Hout | exact Hres]].
Defined.

(** The whole predict action when the export fails: the mood stays in
    the labels and the failure goes to the printed lines only. *)
Example on_button_click_export_failure :
  let w' := snd (on_button_click Sample.broken_writer
                                 (Sample.world "-5, -1, -2")) in
  result_label w' = "Mood: Sad"%string
  /\ network_info_label w' = "Low energy detected, may indicate sadness."%string
  /\ stdout w' = ["Could not save animation: No module named 'PIL'"%string].
Proof. vm_compute. repeat split. Qed.

(* ------------------------------------------------------------------ *)
(** ** The classifier on special values and under symmetries *)

Section MoodFacts.

Local Open Scope Q_scope.

Lemma fadd_nan_r (x : float64) : fadd x NaN = NaN.
Proof. destruct x; reflexivity. Qed.

Lemma fold_fadd_nan (l : list float64) : fold_left fadd l NaN = NaN.
Proof. induction l as [| x l IH]; [reflexivity | exact IH]. Qed.

Lemma fold_fadd_has_nan (l : list float64) (acc : float64) :
  In NaN l -> fold_left fadd l acc = NaN.
Proof.
  revert acc. induction l as [| x l IH]; intros acc Hin; [contradiction |].
  simpl. destruct Hin as [-> | Hin].
  - rewrite fadd_nan_r. apply fold_fadd_nan.
  - apply IH. exact Hin.
Qed.






(** X1.  A [nan] among the readings makes the mean [nan], and the answer
    is Neutral whatever the other readings are. *)
Theorem predict_mood_nan (eeg_values : list float64) :
  In NaN eeg_values ->
  np_mean eeg_values = NaN /\ predict_mood eeg_values = Neutral.
Proof.
  intro Hin.
  assert (Hmean : np_mean eeg_values = NaN).
  { unfold np_mean, np_sum. rewrite (fold_fadd_has_nan _ _ Hin).
    reflexivity. }
  split; [exact Hmean |]. unfold predict_mood. rewrite Hmean. reflexivity.
Qed.












End MoodFacts.

Lemma predict_mood_nan_witness :
  predict_mood [Finite 9; NaN; Finite 9] = Neutral.
Proof.
  assert (Hin : In NaN [Finite 9; NaN; Finite 9])
    by (right; left; reflexivity).
  exact (proj2 (predict_mood_nan [Finite 9; NaN; Finite 9] Hin)).
Defined.




(* ------------------------------------------------------------------ *)
(** ** Splitting, joining and reading numbers *)

Section TextFacts.

Local Open Scope string_scope.

Lemma split_not_nil (sep : ascii) (s : string) : split sep s <> [].
Proof.
  destruct s as [| c rest]; simpl; [discriminate |].
  destruct (Ascii.eqb c sep); [discriminate |].
  destruct (split sep rest); discriminate.
Qed.

Lemma join_cons (sep p : string) (ps : list string) :
  ps <> [] -> join sep (p :: ps) = p ++ sep ++ join sep ps.
Proof. destruct ps; [contradiction | reflexivity]. Qed.

Lemma append_assoc (a b c : string) : (a ++ b) ++ c = a ++ (b ++ c).
Proof. induction a as [| x a IH]; simpl; [| rewrite IH]; reflexivity. Qed.

Lemma join_push (sep : string) (c : ascii) (f : string)
      (fs : list string) :
  join sep (String c f :: fs) = String c (join sep (f :: fs)).
Proof. destruct fs; reflexivity. Qed.

(** Joining the fields of a text with the separator gives the text
    back: splitting loses nothing. *)
Lemma join_split (sep : ascii) (s : string) :
  join (String sep "") (split sep s) = s.
Proof.
  induction s as [| c rest IH]; [reflexivity |].
  simpl. destruct (Ascii.eqb c sep) eqn:E.
  - apply Ascii.eqb_eq in E. subst c.
    rewrite join_cons by apply split_not_nil.
    rewrite IH. reflexivity.
  - pose proof (split_not_nil sep rest) as Hne.
    destruct (split sep rest) as [| f fs]; [contradiction |].
    rewrite join_push, IH. reflexivity.
Qed.

Lemma lacks_cons (sep c : ascii) (s : string) :
  lacks sep (String c s) -> c <> sep /\ lacks sep s.
Proof.
  unfold lacks. simpl. intro H. split.
  - intro E. apply H. left. exact E.
  - intro Hin. apply H. right. exact Hin.
Qed.

Lemma split_lacks (sep : ascii) (s : string) :
  lacks sep s -> split sep s = [s].
Proof.
  induction s as [| c rest IH]; intro H; [reflexivity |].
  apply lacks_cons in H. destruct H as [Hc Hrest].
  simpl. destruct (Ascii.eqb c sep) eqn:E.
  - apply Ascii.eqb_eq in E. contradiction.
  - rewrite (IH Hrest). reflexivity.
Qed.

Lemma split_field (sep : ascii) (p rest : string) :
  lacks sep p -> split sep (p ++ String sep rest) = p :: split sep rest.
Proof.
  induction p as [| c p IH]; intro H; simpl.
  - rewrite Ascii.eqb_refl. reflexivity.
  - apply lacks_cons in H. destruct H as [Hc Hp].
    destruct (Ascii.eqb c sep) eqn:E.
    + apply Ascii.eqb_eq in E. contradiction.
    + rewrite (IH Hp). reflexivity.
Qed.

(** The tokens of a text written with [", ".join]: the first part as it
    is, every later part after one space. *)
Lemma split_join_comma_space (p : string) (ps : list string) :
  Forall (lacks ",") (p :: ps) ->
  split "," (join ", " (p :: ps)) = p :: map (String " ") ps.
Proof.
  revert p. induction ps as [| q ps IH]; intros p Hall.
  - simpl. apply split_lacks. inversion Hall. assumption.
  - inversion Hall as [| ? ? Hp Hrest]; subst.
    rewrite join_cons by discriminate.
    change (", " ++ join ", " (q :: ps))
      with (String "," (String " " (join ", " (q :: ps)))).
    rewrite (split_field "," p _ Hp).
    change (split "," (String " " (join ", " (q :: ps))))
      with (match split "," (join ", " (q :: ps)) with
            | [] => [String " " ""]
            | f :: fs => String " " f :: fs
            end).
    rewrite (IH q Hrest). reflexivity.
Qed.

Lemma chars_app (a b : string) :
  list_ascii_of_string (a ++ b)
  = (list_ascii_of_string a ++ list_ascii_of_string b)%list.
Proof. induction a as [| c a IH]; simpl; [| rewrite IH]; reflexivity. Qed.

Lemma lstrip_spaces (la l : list ascii) :
  Forall (fun c => is_space c = true) la ->
  lstrip (la ++ l)%list = lstrip l.
Proof.
  induction 1 as [| c la Hc _ IH]; [reflexivity |].
  simpl. rewrite Hc. exact IH.
Qed.

Lemma lstrip_app (l m : list ascii) :
  lstrip (l ++ m)%list
  = match lstrip l with
    | [] => lstrip m
    | _ :: _ => (lstrip l ++ m)%list
    end.
Proof.
  induction l as [| c l IH]; simpl.
  - destruct (lstrip m); reflexivity.
  - destruct (is_space c); [exact IH | reflexivity].
Qed.

Lemma strip_padding (la l lb : list ascii) :
  Forall (fun c => is_space c = true) la ->
  Forall (fun c => is_space c = true) lb ->
  strip (la ++ l ++ lb)%list = strip l.
Proof.
  intros Ha Hb. unfold strip. rewrite (lstrip_spaces la _ Ha).
  rewrite lstrip_app. destruct (lstrip l) as [| c k] eqn:E.
  - rewrite <- (app_nil_r lb), (lstrip_spaces lb [] Hb). reflexivity.
  - rewrite rev_app_distr. rewrite lstrip_spaces; [reflexivity |].
    apply Forall_rev. exact Hb.
Qed.

(** X5.  White space around a token does not count: [float] reads a
    padded text as it reads the text itself, and fails on the one when it
    fails on the other. *)
Theorem float_of_string_padding (a s b : string) :
  blank_text a -> blank_text b ->
  float_of_string (a ++ s ++ b) = float_of_string s.
Proof.
  intros Ha Hb. unfold float_of_string.
  rewrite !chars_app. rewrite (strip_padding _ _ _ Ha Hb). reflexivity.
Qed.


(** X6.  [split] and [join] are inverse of each other: joining the
    fields of any text gives the text back, and splitting the join of
    parts that hold no separator gives the parts back. *)
Theorem split_join_inverse (sep : ascii) :
  (forall s, join (String sep "") (split sep s) = s)
  /\ (forall parts,
         parts <> [] -> Forall (lacks sep) parts ->
         split sep (join (String sep "") parts) = parts).
Proof.
  split; [apply join_split |].
  induction parts as [| p ps IH]; intros Hne Hall; [contradiction |].
  inversion Hall as [| ? ? Hp Hps]; subst.
  destruct ps as [| q ps].
  - simpl. apply split_lacks. exact Hp.
  - rewrite join_cons by discriminate.
    change (String sep "" ++ join (String sep "") (q :: ps))
      with (String sep (join (String sep "") (q :: ps))).
    rewrite (split_field sep p _ Hp). f_equal.
    apply IH; [discriminate | exact Hps].
Qed.

End TextFacts.

Lemma float_of_string_padding_witness :
  float_of_string "  2.5 " = Some (Finite (25 # 10)).
Proof.
  assert (Ha : blank_text "  ") by (repeat constructor).
  assert (Hb : blank_text " ") by (repeat constructor).
  change "  2.5 "%string with ("  " ++ "2.5" ++ " ")%string.
  rewrite (float_of_string_padding "  " "2.5" " " Ha Hb). reflexivity.
Defined.

Lemma split_join_inverse_witness :
  split "," (join "," ["1.5"; " 2"; "abc"]%string) = ["1.5"; " 2"; "abc"]%string.
Proof.
  apply (proj2 (split_join_inverse ",")).
  - discriminate.
  - repeat constructor; unfold lacks; simpl; intuition discriminate.
Defined.

(* ------------------------------------------------------------------ *)
(** ** The predict action from end to end *)

Section RunFacts.

Lemma bind_returned {A B : Type} (m : Stmt A) (k : A -> Stmt B)
      (w w' : World) (a : A) :
  m w = (Return a, w') -> bind m k w = k a w'.
Proof. intro E. unfold bind. rewrite E. reflexivity. Qed.








End RunFacts.

Section ClickRuns.

Variable writer_fault : Stage -> option PyExc.











End ClickRuns.

Section ClickTheorems.

Variable writer_fault : Stage -> option PyExc.

(** X7.  No error leaves the predict action: whatever the text, the
    writer and the error it raises, [on_button_click] returns
    normally. *)
Theorem on_button_click_never_raises (w : World) :
  exists w', on_button_click writer_fault w = (Return tt, w').
Proof.
  unfold on_button_click, try_except.
  match goal with
  | |- exists w', match ?body with _ => _ end = _ =>
      destruct body as [[[] | e] w1]
  end.
  - exists w1. reflexivity.
  - unfold except_all. eexists. reflexivity.
Qed.




End ClickTheorems.

Section LoadThenClick.

Context {cell : Type}.
Variable str_cell : cell -> string.
Variable pd_read_csv : string -> Res (DataFrame cell).
Variable writer_fault : Stage -> option PyExc.





End LoadThenClick.






(* ------------------------------------------------------------------ *)
(** ** What the animation leaves on the canvas *)

Section ViewFacts.

Variable writer_fault : Stage -> option PyExc.



Section GoodWriterView.

Hypothesis no_fault : forall s, writer_fault s = None.

Variable eeg_values : list float64.





End GoodWriterView.

End ViewFacts.

Section ViewTheorems.

Variable writer_fault : Stage -> option PyExc.



End ViewTheorems.



(* ------------------------------------------------------------------ *)
(** ** The random network, value by value *)

Section DenoteFacts.

Local Open Scope Q_scope.

(** The loop of the graph generator draws one value per candidate and
    keeps the candidates whose value is below [p]. *)
Lemma add_random_edges_runs (p : Q) (cands : list (nat * nat)) (w : World) :
  add_random_edges p cands w
  = (Return (chosen_edges p (stream (py_random w)) (cursor (py_random w))
                          cands),
     set_py_random
       (mkRng (stream (py_random w))
              (cursor (py_random w) + length cands)%nat) w).
Proof.
  revert w. induction cands as [| e rest IH]; intro w.
  - cbn [add_random_edges chosen_edges length]. unfold ret.
    rewrite Nat.add_0_r. destruct w as [a b c d e f g [s k] i].
    reflexivity.
  - cbn [add_random_edges chosen_edges length].
    rewrite (bind_returned _ _ w
               (set_py_random (advance (py_random w)) w)
               (stream (py_random w) (cursor (py_random w))) eq_refl).
    rewrite (bind_returned _ _ _ _ _ (IH _)).
    unfold ret. cbn [py_random set_py_random advance stream cursor].
    rewrite Nat.add_succ_r. reflexivity.
Qed.

Lemma erdos_renyi_graph_runs (n : nat) (p : Q) (w : World) :
  Qle_bool p 0 = false -> Qle_bool 1 p = false ->
  erdos_renyi_graph n p w
  = (Return (mkGraph (seq 0 n)
               (chosen_edges p (stream (py_random w))
                             (cursor (py_random w)) (combinations2 n))),
     set_py_random
       (mkRng (stream (py_random w))
              (cursor (py_random w) + length (combinations2 n))%nat) w).
Proof.
  intros H0 H1. unfold erdos_renyi_graph. rewrite H0, H1.
  rewrite (bind_returned _ _ _ _ _ (add_random_edges_runs p _ w)).
  reflexivity.
Qed.

Lemma random_positions_runs (ns : list nat) (w : World) :
  random_positions ns w
  = (Return (positions_from (stream (np_random w)) (cursor (np_random w))
                            ns),
     set_np_random
       (mkRng (stream (np_random w))
              (cursor (np_random w) + 3 * length ns)%nat) w).
Proof.
  revert w. induction ns as [| i rest IH]; intro w.
  - cbn [random_positions positions_from length]. unfold ret.
    rewrite Nat.mul_0_r, Nat.add_0_r.
    destruct w as [a b c d e f g h [s k]]. reflexivity.
  - cbn [random_positions positions_from length].
    assert (E3 : np_random_rand3 w
                 = (Return (stream (np_random w) (cursor (np_random w)),
                            stream (np_random w) (S (cursor (np_random w))),
                            stream (np_random w)
                                   (S (S (cursor (np_random w))))),
                    set_np_random
                      (mkRng (stream (np_random w))
                             (S (S (S (cursor (np_random w)))))) w))
      by reflexivity.
    rewrite (bind_returned _ _ _ _ _ E3).
    rewrite (bind_returned _ _ _ _ _ (IH _)).
    unfold ret. cbn [np_random set_np_random stream cursor].
    replace (S (S (S (cursor (np_random w)))) + 3 * length rest)%nat
      with (cursor (np_random w) + 3 * S (length rest))%nat by lia.
    reflexivity.
Qed.

Lemma pos_get_runs (pos : list (nat * Point3)) (i : nat) (w : World) :
  In i (map fst pos) -> pos_get pos i w = (Return (pos_at pos i), w).
Proof.
  induction pos as [| [k p] pos IH]; intro Hin; [contradiction |].
  cbn [pos_get pos_at]. destruct (k =? i)%nat eqn:E.
  - reflexivity.
  - apply IH. destruct Hin as [H | H]; [| exact H].
    simpl in H. subst k. rewrite Nat.eqb_refl in E. discriminate.
Qed.

Lemma for_each_same {A : Type} (xs : list A) (body body' : A -> Stmt unit) :
  (forall x, In x xs -> forall w, body x w = body' x w) ->
  forall w, for_each xs body w = for_each xs body' w.
Proof.
  induction xs as [| x xs IH]; intros Hsame w; [reflexivity |].
  cbn [for_each]. unfold bind. rewrite (Hsame x (or_introl eq_refl)).
  destruct (body' x w) as [[[] | e] w1]; [| reflexivity].
  apply IH. intros y Hy. apply Hsame. right. exact Hy.
Qed.

(** A loop of statements on the 3D axes is one statement on them. *)
Lemma for_each_on_ax2 {A : Type} (xs : list A) (g : A -> Axes3D -> Axes3D)
      (w : World) :
  for_each xs (fun x => on_ax2 (g x)) w
  = (Return tt, with_ax2 (fun a => fold_left (fun a x => g x a) xs a) w).
Proof.
  revert w. induction xs as [| x xs IH]; intro w.
  - cbn [for_each fold_left]. unfold ret, with_ax2.
    destruct w as [a b c [d1 d2] e f g0 h i]. reflexivity.
  - cbn [for_each]. unfold on_ax2 at 1. rewrite bind_modify. cbv beta.
    rewrite IH. reflexivity.
Qed.

Lemma fold_segments (pos : list (nat * Point3)) (es : list (nat * nat))
      (a : Axes3D) :
  fold_left
    (fun a e =>
       mkAxes3D (scatter a)
                (segments a ++ [(pos_at pos (fst e), pos_at pos (snd e))])
                (texts a) (title3 a) (xlabel3 a) (ylabel3 a) (zlabel3 a))
    es a
  = mkAxes3D (scatter a)
             (segments a
                ++ map (fun e => (pos_at pos (fst e), pos_at pos (snd e))) es)
             (texts a) (title3 a) (xlabel3 a) (ylabel3 a) (zlabel3 a).
Proof.
  revert a. induction es as [| e es IH]; intro a.
  - cbn [fold_left map]. rewrite app_nil_r. destruct a; reflexivity.
  - cbn [fold_left map]. rewrite IH.
    cbn [scatter segments texts title3 xlabel3 ylabel3 zlabel3].
    rewrite <- app_assoc. reflexivity.
Qed.

Lemma fold_texts (prefix : string) (pos : list (nat * Point3))
      (a : Axes3D) :
  fold_left
    (fun a ip =>
       mkAxes3D (scatter a) (segments a)
                (texts a ++ [(snd ip, (prefix ++ str_nat (fst ip))%string)])
                (title3 a) (xlabel3 a) (ylabel3 a) (zlabel3 a))
    pos a
  = mkAxes3D (scatter a) (segments a)
             (texts a
                ++ map (fun ip =>
                          (snd ip, (prefix ++ str_nat (fst ip))%string)) pos)
             (title3 a) (xlabel3 a) (ylabel3 a) (zlabel3 a).
Proof.
  revert a. induction pos as [| ip pos IH]; intro a.
  - cbn [fold_left map]. rewrite app_nil_r. destruct a; reflexivity.
  - cbn [fold_left map]. rewrite IH.
    cbn [scatter segments texts title3 xlabel3 ylabel3 zlabel3].
    rewrite <- app_assoc. reflexivity.
Qed.

Lemma chosen_edges_incl (p : Q) (s : nat -> Q) (c : nat)
      (cands : list (nat * nat)) :
  incl (chosen_edges p s c cands) cands.
Proof.
  revert c. induction cands as [| e rest IH]; intro c; cbn [chosen_edges].
  - apply incl_refl.
  - destruct (Qltb (s c) p).
    + intros x [-> | Hx]; [left; reflexivity | right; exact (IH _ x Hx)].
    + apply incl_tl. apply IH.
Qed.

Lemma positions_from_keys (s : nat -> Q) (c : nat) (ns : list nat) :
  map fst (positions_from s c ns) = ns.
Proof.
  revert c. induction ns as [| i ns IH]; intro c; [reflexivity |].
  cbn [positions_from map fst]. rewrite IH. reflexivity.
Qed.

(** [draw_network] always returns, and leaves [drawn_world]. *)
Lemma draw_network_runs (clear_first : bool) (prefix : string) (w : World) :
  draw_network clear_first prefix w
  = (Return tt, drawn_world clear_first prefix w).
Proof.
  unfold draw_network.
  rewrite (bind_returned _ _ _ _ _
             (erdos_renyi_graph_runs 10 (3 # 10) w eq_refl eq_refl)).
  cbn [nodes edges].
  rewrite (bind_returned _ _ _ _ _ (random_positions_runs (seq 0 10) _)).
  cbn [np_random set_py_random].
  set (es := chosen_edges (3 # 10) (stream (py_random w))
                          (cursor (py_random w)) (combinations2 10)).
  set (pos := positions_from (stream (np_random w)) (cursor (np_random w))
                             (seq 0 10)).
  assert (Hkeys : forall e, In e es ->
                            In (fst e) (map fst pos)
                            /\ In (snd e) (map fst pos)).
  { intros e He. apply chosen_edges_incl in He.
    apply combinations2_bound in He.
    unfold pos. rewrite positions_from_keys, !in_seq. lia. }
  assert (Hclear : forall w0,
             (if clear_first then ax2_clear else ret tt) w0
             = (Return tt,
                with_ax2 (fun a => if clear_first then blank_axes3d else a)
                         w0)).
  { intro w0. destruct clear_first; [reflexivity |].
    unfold ret, with_ax2. destruct w0 as [a b c [d1 d2] e f g h i].
    reflexivity. }
  rewrite (bind_returned _ _ _ _ _ (Hclear _)).
  unfold ax2_scatter at 1. unfold on_ax2 at 1. rewrite bind_modify. cbv beta.
  rewrite (bind_returned _ _ _ _ tt
             (eq_trans
                (for_each_same es _
                   (fun e => on_ax2 (fun a =>
                      mkAxes3D (scatter a)
                        (segments a
                           ++ [(pos_at pos (fst e), pos_at pos (snd e))])
                        (texts a) (title3 a) (xlabel3 a) (ylabel3 a)
                        (zlabel3 a)))
                   (fun e He w0 =>
                      eq_trans
                        (bind_returned _ _ _ _ _
                           (pos_get_runs pos (fst e) w0
                              (proj1 (Hkeys e He))))
                        (bind_returned _ _ _ _ _
                           (pos_get_runs pos (snd e) w0
                              (proj2 (Hkeys e He)))))
                   _)
                (for_each_on_ax2 es _ _))).
  unfold ax2_text. rewrite for_each_on_ax2.
  f_equal. unfold drawn_world. fold es. fold pos.
  unfold with_ax2, drawn_axes.
  cbn [figure ax1 ax2 set_figure set_np_random set_py_random eeg_input
       result_label network_info_label screen stdout gif py_random
       np_random].
  rewrite fold_segments, fold_texts.
  cbn [scatter segments texts title3 xlabel3 ylabel3 zlabel3].
  reflexivity.
Qed.

End DenoteFacts.

Section NetworkShape.

Local Open Scope Q_scope.

Lemma chosen_edges_spec (p : Q) (s : nat -> Q) (cands : list (nat * nat))
      (c : nat) (e : nat * nat) :
  In e (chosen_edges p s c cands)
  <-> exists k, nth_error cands k = Some e /\ s (c + k)%nat < p.
Proof.
  revert c. induction cands as [| x rest IH]; intro c; cbn [chosen_edges].
  - split; [intros [] | intros ([| k] & H & _); discriminate].
  - destruct (Qltb (s c) p) eqn:E.
    + split.
      * intros [-> | Hin].
        -- exists 0%nat. split; [reflexivity |].
           rewrite Nat.add_0_r. apply Qltb_lt. exact E.
        -- apply IH in Hin. destruct Hin as (k & Hk & Hlt).
           exists (S k). split; [exact Hk |].
           rewrite Nat.add_succ_r. exact Hlt.
      * intros ([| k] & Hk & Hlt).
        -- left. cbn in Hk. congruence.
        -- right. apply IH. exists k. split; [exact Hk |].
           rewrite Nat.add_succ_r in Hlt. exact Hlt.
    + split.
      * intro Hin. apply IH in Hin. destruct Hin as (k & Hk & Hlt).
        exists (S k). split; [exact Hk |].
        rewrite Nat.add_succ_r. exact Hlt.
      * intros ([| k] & Hk & Hlt).
        -- exfalso. rewrite Nat.add_0_r in Hlt. apply Qltb_lt in Hlt.
           congruence.
        -- apply IH. exists k. split; [exact Hk |].
           rewrite Nat.add_succ_r in Hlt. exact Hlt.
Qed.

Lemma chosen_edges_length (p : Q) (s : nat -> Q) (c : nat)
      (cands : list (nat * nat)) :
  (length (chosen_edges p s c cands) <= length cands)%nat.
Proof.
  revert c. induction cands as [| e rest IH]; intro c; cbn [chosen_edges].
  - apply Nat.le_refl.
  - specialize (IH (S c)). destruct (Qltb (s c) p); cbn [length]; lia.
Qed.

Lemma positions_from_length (s : nat -> Q) (c : nat) (ns : list nat) :
  length (positions_from s c ns) = length ns.
Proof.
  revert c. induction ns as [| i ns IH]; intro c; [reflexivity |].
  cbn [positions_from length]. rewrite IH. reflexivity.
Qed.

Lemma positions_from_unit (s : nat -> Q) (c : nat) (ns : list nat) :
  (forall k, 0 <= s k /\ s k < 1) ->
  Forall in_unit_cube (map snd (positions_from s c ns)).
Proof.
  intro Hs. revert c. induction ns as [| i ns IH]; intro c.
  - constructor.
  - cbn [positions_from map snd]. constructor; [| apply IH].
    unfold in_unit_cube. repeat split; apply Hs.
Qed.

Lemma pos_at_in (pos : list (nat * Point3)) (i : nat) :
  In i (map fst pos) -> In (pos_at pos i) (map snd pos).
Proof.
  induction pos as [| [k p] pos IH]; intro Hin; [contradiction |].
  cbn [pos_at map snd]. destruct (k =? i)%nat eqn:E.
  - left. reflexivity.
  - right. apply IH. destruct Hin as [H | H]; [| exact H].
    simpl in H. subst k. rewrite Nat.eqb_refl in E. discriminate.
Qed.

Lemma texts_as_combine (f : nat -> string) (pos : list (nat * Point3)) :
  map (fun ip => (snd ip, f (fst ip))) pos
  = combine (map snd pos) (map f (map fst pos)).
Proof.
  induction pos as [| ip pos IH]; [reflexivity |].
  cbn [map combine]. rewrite IH. reflexivity.
Qed.

(** The shape of what [draw_network] adds to the axes [old]. *)
Lemma drawn_axes_shape (prefix : string) (w : World) (old : Axes3D) :
  let es := chosen_edges (3 # 10) (stream (py_random w))
                         (cursor (py_random w)) (combinations2 10) in
  let pos := positions_from (stream (np_random w))
                            (cursor (np_random w)) (seq 0 10) in
  exists pts segs,
    length pts = 10%nat
    /\ scatter (drawn_axes prefix es pos old) = scatter old ++ pts
    /\ texts (drawn_axes prefix es pos old)
       = texts old
           ++ combine pts
                (map (fun i => (prefix ++ str_nat i)%string) (seq 0 10))
    /\ segments (drawn_axes prefix es pos old) = segments old ++ segs
    /\ (length segs <= 45)%nat
    /\ Forall (fun sg => In (fst sg) pts /\ In (snd sg) pts) segs
    /\ (unit_values (np_random w) -> Forall in_unit_cube pts).
Proof.
  intros es pos.
  exists (map snd pos),
         (map (fun e => (pos_at pos (fst e), pos_at pos (snd e))) es).
  split; [| split; [| split; [| split; [| split; [| split]]]]].
  - rewrite length_map. unfold pos. rewrite positions_from_length.
    reflexivity.
  - reflexivity.
  - cbn [drawn_axes texts]. apply f_equal.
    rewrite (texts_as_combine (fun i => (prefix ++ str_nat i)%string)).
    apply f_equal. apply f_equal. unfold pos. apply positions_from_keys.
  - reflexivity.
  - rewrite length_map. unfold es.
    change 45%nat with (length (combinations2 10)).
    apply chosen_edges_length.
  - apply Forall_forall. intros sg Hsg. apply in_map_iff in Hsg.
    destruct Hsg as (e & <- & He). cbn [fst snd].
    apply chosen_edges_incl in He. apply combinations2_bound in He.
    assert (Hk : forall i, (i < 10)%nat -> In i (map fst pos)).
    { intros i Hi. unfold pos. rewrite positions_from_keys, in_seq. lia. }
    split; apply pos_at_in; apply Hk; lia.
  - intro Hunit. unfold pos. apply positions_from_unit. exact Hunit.
Qed.

(** X15.  The graph of a snapshot: its nodes are 0 to 9; 45 values are
    drawn from the generator, one per pair of nodes in lexicographic
    order; and a pair is an edge exactly when its own value is below
    0.3. *)
Theorem snapshot_edge_rule (w : World) :
  exists G w',
    erdos_renyi_graph 10 (3 # 10) w = (Return G, w')
    /\ nodes G = [0; 1; 2; 3; 4; 5; 6; 7; 8; 9]%nat
    /\ (forall e,
           In e (edges G)
           <-> exists k,
                 nth_error (combinations2 10) k = Some e
                 /\ stream (py_random w) (cursor (py_random w) + k)%nat
                    < 3 # 10)
    /\ length (combinations2 10) = 45%nat
    /\ cursor (py_random w') = (cursor (py_random w) + 45)%nat
    /\ stream (py_random w') = stream (py_random w)
    /\ np_random w' = np_random w.
Proof.
  eexists _, _. split.
  - apply (erdos_renyi_graph_runs 10 (3 # 10) w); reflexivity.
  - split; [reflexivity |]. split; [| repeat split].
    intro e. cbn [edges]. apply chosen_edges_spec.
Qed.

(** X16.  The static render adds to the 3D axes ten points, the texts
    [Node 0] to [Node 9] at these points in order, and at most 45
    segments, each between two of the points; it sets the title
    [3D Brain Network] and the axis names, leaves the 2D axes alone, and
    the points lie in the unit cube when the generator's values lie in
    [0, 1). *)
Theorem plot_3d_network_draws (w : World) :
  exists w' pts segs,
    plot_3d_network w = (Return tt, w')
    /\ length pts = 10%nat
    /\ scatter (ax2 (figure w')) = scatter (ax2 (figure w)) ++ pts
    /\ texts (ax2 (figure w'))
       = texts (ax2 (figure w)) ++ combine pts node_labels
    /\ segments (ax2 (figure w')) = segments (ax2 (figure w)) ++ segs
    /\ (length segs <= 45)%nat
    /\ Forall (fun sg => In (fst sg) pts /\ In (snd sg) pts) segs
    /\ (title3 (ax2 (figure w')), xlabel3 (ax2 (figure w')),
        ylabel3 (ax2 (figure w')), zlabel3 (ax2 (figure w')))
       = ("3D Brain Network", "X", "Y", "Z")%string
    /\ ax1 (figure w') = ax1 (figure w)
    /\ (unit_values (np_random w) -> Forall in_unit_cube pts).
Proof.
  destruct (drawn_axes_shape "Node " w (ax2 (figure w)))
    as (pts & segs & Hlen & Hsc & Htx & Hsg & Hn & Hends & Hunit).
  eexists _, pts, segs. split.
  - unfold plot_3d_network.
    rewrite (bind_returned _ _ _ _ _ (draw_network_runs false "Node " w)).
    unfold ax2_set_title, ax2_set_xlabel, ax2_set_ylabel, ax2_set_zlabel,
      on_ax2.
    do 3 (rewrite bind_modify; cbv beta).
    reflexivity.
  - split; [exact Hlen |].
    split; [exact Hsc |].
    split; [exact Htx |].
    split; [exact Hsg |].
    split; [exact Hn |].
    split; [exact Hends |].
    split; [reflexivity |].
    split; [reflexivity | exact Hunit].
Qed.

(** X17.  Every frame replaces the network: after [update] the 3D axes
    hold ten new points and the texts [N0] to [N9], nothing of what was
    there before, and the two generators have handed out 45 and 30 more
    values. *)
Theorem update_redraws_network (eeg_values : list float64) (frame : nat)
        (w : World) :
  (frame <= length eeg_values)%nat ->
  exists w' pts,
    update eeg_values frame w = (Return tt, w')
    /\ length pts = 10%nat
    /\ scatter (ax2 (figure w')) = pts
    /\ texts (ax2 (figure w')) = combine pts frame_labels
    /\ (length (segments (ax2 (figure w'))) <= 45)%nat
    /\ cursor (py_random w') = (cursor (py_random w) + 45)%nat
    /\ cursor (np_random w') = (cursor (np_random w) + 30)%nat.
Proof.
  intro Hle.
  assert (Hlen : length (np_linspace0 frame frame)
                 = length (firstn frame eeg_values)).
  { rewrite np_linspace0_length, length_firstn. lia. }
  assert (Hnet : exists w1,
             update eeg_values frame w = update_network w1
             /\ py_random w1 = py_random w
             /\ np_random w1 = np_random w).
  { eexists. split.
    - rewrite update_split, (ax1_plot_same_length _ _ _ _ Hlen).
      unfold ax1_clear, ax1_set_title, ax1_set_xlabel, ax1_set_ylabel,
        ax1_legend, on_ax1.
      do 6 (rewrite bind_modify; cbv beta).
      reflexivity.
    - split; reflexivity. }
  destruct Hnet as (w1 & E1 & Hpy & Hnp).
  destruct (drawn_axes_shape "N" w1 blank_axes3d)
    as (pts & segs & Hpts & Hsc & Htx & Hsg & Hn & _).
  eexists _, pts. split.
  - rewrite E1. unfold update_network.
    rewrite (bind_returned _ _ _ _ _ (draw_network_runs true "N" w1)).
    unfold ax2_set_title, ax2_set_xlabel, ax2_set_ylabel, ax2_set_zlabel,
      on_ax2.
    do 3 (rewrite bind_modify; cbv beta).
    reflexivity.
  - split; [exact Hpts |].
    split; [exact Hsc |].
    split; [exact Htx |].
    split; [| split].
    + change (length (segments (drawn_axes "N"
                (chosen_edges (3 # 10) (stream (py_random w1))
                   (cursor (py_random w1)) (combinations2 10))
                (positions_from (stream (np_random w1))
                   (cursor (np_random w1)) (seq 0 10))
                blank_axes3d)) <= 45)%nat.
      rewrite Hsg. exact Hn.
    + rewrite <- Hpy. reflexivity.
    + rewrite <- Hnp. reflexivity.
Qed.

End NetworkShape.

Lemma update_redraws_network_witness :
  exists w',
    update (map Finite [1; 4; 2]%Q) 2 (Sample.world "1,4,2") = (Return tt, w')
    /\ cursor (py_random w') = 45
    /\ cursor (np_random w') = 30.
Proof.
  destruct (update_redraws_network (map Finite [1; 4; 2]%Q) 2
              (Sample.world "1,4,2"))
    as (w' & pts & E & _ & _ & _ & _ & Hpy & Hnp).
  - simpl. lia.
  - exists w'. split; [exact E | split; [exact Hpy | exact Hnp]].
Defined.

Lemma sample_rng_unit_values : unit_values Sample.rng.
Proof.
  intro k. unfold Sample.rng. cbn [stream].
  assert (Hm : (7 * k + 3) mod 10 < 10) by (apply Nat.mod_upper_bound; lia).
  split.
  - unfold Qle. cbn [Qnum Qden]. lia.
  - unfold Qlt. cbn [Qnum Qden]. lia.
Qed.

Lemma plot_3d_network_draws_witness :
  exists w' pts,
    plot_3d_network (Sample.world "1") = (Return tt, w')
    /\ scatter (ax2 (figure w')) = pts
    /\ length pts = 10
    /\ Forall in_unit_cube pts.
Proof.
  destruct (plot_3d_network_draws (Sample.world "1"))
    as (w' & pts & segs & E & Hlen & Hsc & _ & _ & _ & _ & _ & _ & Hunit).
  exists w', pts. split; [exact E | split; [exact Hsc | split]].
  - exact Hlen.
  - apply Hunit. exact sample_rng_unit_values.
Defined.

(* ------------------------------------------------------------------ *)
(** ** Readings on one side of a threshold *)

Section BoundFacts.

Local Open Scope Q_scope.








End BoundFacts.


(* ------------------------------------------------------------------ *)
(** ** The table after the label guard, and the size of the text *)

Section TableFacts.

Context {cell : Type}.
Variable str_cell : cell -> string.
Variable pd_read_csv : string -> Res (DataFrame cell).




(** X20.  After a successful load the text field holds one token per
    kept value, and never more than a hundred: between 1 and 100 tokens,
    the single token of an empty table being empty. *)
Theorem load_csv_file_token_count (path : string) (df : DataFrame cell)
        (w : World) :
  path <> EmptyString ->
  pd_read_csv path = Return df ->
  Forall (fun c => lacks "," (str_cell c)) (csv_values df) ->
  let tokens :=
    split "," (eeg_input (snd (load_csv_file str_cell pd_read_csv path w))) in
  length tokens = Nat.max 1 (length (csv_values df))
  /\ 1 <= length tokens <= 100.
Proof.
  intros Hpath Hread Hall tokens. subst tokens.
  rewrite (load_csv_file_reads str_cell pd_read_csv path df w Hpath Hread).
  cbn [snd eeg_input set_eeg_input].
  assert (Hbound : length (csv_values df) <= 100).
  { unfold csv_values, first_100. rewrite length_firstn. lia. }
  destruct (csv_values df) as [| c cs].
  - cbn. lia.
  - cbn [map]. rewrite split_join_comma_space.
    + cbn [length] in *. rewrite !length_map. lia.
    + change (Forall (lacks ",") (map str_cell (c :: cs))).
      apply Forall_map. exact Hall.
Qed.

End TableFacts.

Lemma load_csv_file_token_count_witness :
  length (split ","
            (eeg_input (snd (load_csv_file Sample.str_Z Sample2.read_readings
                                           "eeg.csv" (Sample.world "")))))
  = 4.
Proof.
  destruct (load_csv_file_token_count Sample.str_Z Sample2.read_readings
              "eeg.csv" Sample2.readings (Sample.world "")) as [H _].
  - discriminate.
  - reflexivity.
  - repeat constructor; unfold lacks; simpl; intuition discriminate.
  - exact H.
Defined.

